(** * full_data_wrapper.py: the JSON adapter around the rule-inference engine

    A shallow embedding of [src/full_data_wrapper.py]: the two model
    translators ([dataframe_to_json], [graph_to_json]), the query
    interceptor ([capture_sparql_queries]) and the run orchestrator
    ([main]), followed by the properties the specification states about
    them.

    Python values are embedded as the inductive [pyval]; dictionaries keep
    their insertion order (association lists with update in place), lists
    are [list]s, integers are [Z].  The libraries the script calls (json,
    pandas, rdflib, tempfile, the engine module) are external: their
    observable behaviour is a field of the environment record [Env] or a
    small model stated next to its use. *)

From Stdlib Require Import ZArith String Ascii List Bool Lia.
From stdpp Require Import base tactics option list strings gmap pretty.

Set Warnings "-register-all".

Open Scope string_scope.
Open Scope list_scope.
Open Scope Z_scope.

(** ** Python values *)

Module Py.

(** The Python objects the adapter handles.  [VFloat] carries a duration
    read off the clock (in clock units; floating point rounding is not
    modelled).  [VObject] is any object the json encoder has no rule for
    (a numpy scalar, a pandas Series, an rdflib term, ...). *)
Inductive pyval : Type :=
| VNone
| VBool (b : bool)
| VInt (n : Z)
| VFloat (units : Z)
| VStr (s : string)
| VList (items : list pyval)
| VDict (items : list (string * pyval))
| VObject (repr : string).

Definition dict := list (string * pyval).

(** [d[k]] read: [None] stands for KeyError. *)
Fixpoint dict_get (k : string) (d : dict) : option pyval :=
  match d with
  | [] => None
  | (k', v) :: d' => if String.eqb k k' then Some v else dict_get k d'
  end.

(** [d[k] = v]: an existing key keeps its position, a new key goes last. *)
Fixpoint dict_set (k : string) (v : pyval) (d : dict) : dict :=
  match d with
  | [] => [(k, v)]
  | (k', v') :: d' =>
      if String.eqb k k' then (k, v) :: d' else (k', v') :: dict_set k v d'
  end.

Definition dict_keys (d : dict) : list string := map fst d.

(** [dict(pairs)], as in [dict(zip(keys, values))]. *)
Definition dict_of_pairs (kvs : list (string * pyval)) : dict :=
  fold_left (fun d kv => dict_set (fst kv) (snd kv) d) kvs [].

(** [v[k]] for a value that is expected to be a dictionary. *)
Definition field (k : string) (v : pyval) : option pyval :=
  match v with
  | VDict d => dict_get k d
  | _ => None
  end.

(** [len(v)] for a list value. *)
Definition list_len (v : pyval) : option nat :=
  match v with
  | VList l => Some (length l)
  | _ => None
  end.

End Py.
Export Py.

(** ** RDF graphs (rdflib) *)

Module Rdf.

(** rdflib's node classes.  A [Literal] always has the attributes
    [datatype] and [language], each possibly [None]; [URIRef] and [BNode]
    are plain string subclasses without them. *)
Inductive term : Type :=
| URIRef (iri : string)
| BNode (label : string)
| Literal (lexical : string) (datatype : option string) (language : option string).

(** [str(t)] *)
Definition term_str (t : term) : string :=
  match t with
  | URIRef iri => iri
  | BNode label => label
  | Literal lexical _ _ => lexical
  end.

(** [hasattr(t, 'datatype')] *)
Definition hasattr_datatype (t : term) : bool :=
  match t with
  | Literal _ _ _ => true
  | _ => false
  end.

(** The tags an object term actually carries: a datatype IRI or a language
    tag that is set (not [None]). *)
Definition datatype_tag (t : term) : option string :=
  match t with
  | Literal _ dt _ => dt
  | _ => None
  end.

Definition language_tag (t : term) : option string :=
  match t with
  | Literal _ _ lang => lang
  | _ => None
  end.

Definition carries_tag (t : term) : bool :=
  bool_decide (is_Some (datatype_tag t)) || bool_decide (is_Some (language_tag t)).

Definition triple : Type := term * term * term.

(** A [Graph]: the triples in the order iteration yields them (each stored
    triple once), and the prefix bindings in the order [namespaces()]
    yields them.  [len(graph)] is the number of stored triples. *)
Record Graph : Type := mkGraph {
  g_triples : list triple;
  g_namespaces : list (string * string)
}.

Definition graph_len (g : Graph) : Z := Z.of_nat (length (g_triples g)).

End Rdf.
Export Rdf.

(** ** Model translators: [graph_to_json] *)

(** Truth value of the optional [limit] argument: [None] and [0] are false. *)
Definition limit_truthy (limit : option Z) : bool :=
  match limit with
  | None => false
  | Some n => negb (n =? 0)
  end.

(** [limit and count >= limit] *)
Definition limit_reached (limit : option Z) (count : Z) : bool :=
  match limit with
  | None => false
  | Some n => negb (n =? 0) && (n <=? count)
  end.

(** The dictionary appended for one triple (lines 68-73). *)
Definition triple_entry (t : triple) : pyval :=
  let '(s, p, o) := t in
  VDict [ ("subject", VStr (term_str s));
          ("predicate", VStr (term_str p));
          ("object", VStr (term_str o));
          ("object_type", VStr (if hasattr_datatype o then "literal" else "uri")) ].

(** The [for s, p, o in graph] loop with its [break] (lines 66-76):
    [triples] and [count] are the loop's two variables. *)
Fixpoint triples_loop (limit : option Z) (rest : list triple)
    (triples : list pyval) (count : Z) : list pyval :=
  match rest with
  | [] => triples
  | t :: rest' =>
      let triples := triples ++ [triple_entry t] in
      let count := count + 1 in
      if limit_reached limit count then triples
      else triples_loop limit rest' triples count
  end.

(** The [for prefix, uri in graph.namespaces()] loop (lines 62-63). *)
Definition namespaces_loop (bindings : list (string * string)) : dict :=
  fold_left (fun namespaces b => dict_set (fst b) (VStr (snd b)) namespaces) bindings [].

Definition graph_to_json (graph : Graph) (limit : option Z) : pyval :=
  let namespaces := namespaces_loop (g_namespaces graph) in
  let triples := triples_loop limit (g_triples graph) [] 0 in
  VDict [ ("triples", VList triples);
          ("total_triples", VInt (graph_len graph));
          ("namespaces", VDict namespaces);
          ("limited_to", match limit with
                         | Some n => if limit_truthy limit then VInt n else VNone
                         | None => VNone
                         end) ].

(** ** Exceptions and the json encoder *)

(** An instance of a subclass of Python's [Exception]: its class name and
    [str(e)]. *)
Record exn : Type := mkExn {
  exn_class : string;
  exn_str : string
}.

Definition KeyError (key : string) : exn := mkExn "KeyError" ("'" +:+ key +:+ "'").

Definition TypeError (msg : string) : exn := mkExn "TypeError" msg.

(** [traceback.format_exc()] inside the handler of [e]; the stack frames
    between the header and the last line are not modelled. *)
Definition format_exc (e : exn) : string :=
  "Traceback (most recent call last): " +:+ exn_class e +:+ ": " +:+ exn_str e.

Definition dquote : string := String "034"%char EmptyString.

Definition join_comma (parts : list string) : string :=
  match parts with
  | [] => ""
  | p :: ps => fold_left (fun acc q => acc +:+ ", " +:+ q) ps p
  end.

(** [json.dumps(v)]: the encoded text, or the TypeError the encoder raises
    at the first object it has no rule for.  The whole text is built before
    anything is returned.  String escaping and the layout of [indent=2] are
    not modelled. *)
Fixpoint json_dumps (v : pyval) : exn + string :=
  match v with
  | VNone => inr "null"
  | VBool true => inr "true"
  | VBool false => inr "false"
  | VInt n => inr (pretty n)
  | VFloat u => inr (pretty u)
  | VStr s => inr (dquote +:+ s +:+ dquote)
  | VList items =>
      let fix each (l : list pyval) : exn + list string :=
        match l with
        | [] => inr []
        | x :: l' =>
            match json_dumps x with
            | inl e => inl e
            | inr a => match each l' with
                       | inl e => inl e
                       | inr b => inr (a :: b)
                       end
            end
        end in
      match each items with
      | inl e => inl e
      | inr parts => inr ("[" +:+ join_comma parts +:+ "]")
      end
  | VDict items =>
      let fix each (l : list (string * pyval)) : exn + list string :=
        match l with
        | [] => inr []
        | (k, x) :: l' =>
            match json_dumps x with
            | inl e => inl e
            | inr a => match each l' with
                       | inl e => inl e
                       | inr b => inr ((dquote +:+ k +:+ dquote +:+ ": " +:+ a) :: b)
                       end
            end
        end in
      match each items with
      | inl e => inl e
      | inr parts => inr ("{" +:+ join_comma parts +:+ "}")
      end
  | VObject repr => inl (TypeError ("Object of type " +:+ repr +:+ " is not JSON serializable"))
  end.

(** ** Prediction tables (pandas) *)

Module Pandas.

Inductive dtype : Type := Int64 | Float64 | BoolDtype | ObjectDtype | Datetime64.

(** [str(dtype)] *)
Definition dtype_str (t : dtype) : string :=
  match t with
  | Int64 => "int64"
  | Float64 => "float64"
  | BoolDtype => "bool"
  | ObjectDtype => "object"
  | Datetime64 => "datetime64[ns]"
  end.

(** A DataFrame: the column labels in order, one dtype per column, and the
    rows in index order, each row holding one cell per column.  A cell is
    kept as the Python object [to_dict('records')] hands out for it (pandas
    boxes numpy scalars into int, float and bool there).  [df_item] is how
    the same cell comes out of a row that [iterrows] yields: for a frame
    whose columns share one numeric dtype that is the numpy scalar
    (numpy.int64 for int64, an object the json encoder has no rule for);
    for a frame of mixed or object columns it is the Python object itself.
    The index is not kept: nothing in the adapter reads it. *)
Record DataFrame : Type := mkDataFrame {
  df_columns : list string;
  df_dtypes : list dtype;
  df_rows : list (list pyval);
  df_item : pyval -> pyval
}.

(** The shape pandas maintains: one dtype and, in every row, one cell per
    column. *)
Definition well_formed (df : DataFrame) : Prop :=
  length (df_dtypes df) = length (df_columns df) /\
  Forall (fun row => length row = length (df_columns df)) (df_rows df).

(** [df.shape] *)
Definition shape (df : DataFrame) : nat * nat :=
  (length (df_rows df), length (df_columns df)).

(** [df.empty]: some axis has length 0. *)
Definition empty (df : DataFrame) : bool :=
  (length (df_rows df) =? 0)%nat || (length (df_columns df) =? 0)%nat.

(** [df.to_dict('records')]: [dict(zip(columns, row))] for every row, the
    cells being the boxed Python objects that [df_rows] keeps. *)
Definition to_dict_records (df : DataFrame) : list pyval :=
  map (fun row => VDict (dict_of_pairs (zip (df_columns df) row))) (df_rows df).

(** [df.dtypes.astype(str).to_dict()] *)
Definition dtypes_to_dict (df : DataFrame) : dict :=
  dict_of_pairs (zip (df_columns df) (map (fun t => VStr (dtype_str t)) (df_dtypes df))).

(** [df.iterrows()]: one Series per row, over the column labels. *)
Definition iterrows (df : DataFrame) : list (list pyval) :=
  map (map (df_item df)) (df_rows df).

(** [row[label]] on a row that [iterrows] yields: KeyError for an unknown
    label, the cell for a label that names one column, and a Series of the
    matching cells when the label names several columns. *)
Definition row_getitem (columns : list string) (row : list pyval) (label : string)
    : exn + pyval :=
  match filter (fun kv => String.eqb label (fst kv) = true) (zip columns row) with
  | [] => inl (KeyError label)
  | [(_, cell)] => inr cell
  | _ => inr (VObject "Series")
  end.

End Pandas.
Export Pandas.

(** ** Model translators: [dataframe_to_json] *)

Definition dataframe_to_json (df : option DataFrame) : pyval :=
  match df with
  | None =>
      VDict [ ("columns", VList []); ("data", VList []);
              ("shape", VList [VInt 0; VInt 0]) ]
  | Some df =>
      if empty df then
        VDict [ ("columns", VList []); ("data", VList []);
                ("shape", VList [VInt 0; VInt 0]) ]
      else
        VDict [ ("columns", VList (map VStr (df_columns df)));
                ("data", VList (to_dict_records df));
                ("shape", VList [VInt (Z.of_nat (fst (shape df)));
                                 VInt (Z.of_nat (snd (shape df)))]);
                ("dtypes", VDict (dtypes_to_dict df)) ]
  end.

(** ** The process: its state and the monad of its effects *)

(** A row of a query result. *)
Definition row : Type := list term.

(** A graph object on the heap: its store, and whether its [query]
    attribute has been replaced by [capturing_query]. *)
Record graph_obj : Type := mkGraphObj {
  go_graph : Graph;
  go_capturing : bool
}.

(** Calls that leave the adapter, in the order they happen.  [EvQuery g q n]
    is the engine calling [g.query(q)]; [n] is the number of rows the query
    yields on the graph as it is at the call, or [None] when the query
    raises there. *)
Inductive event : Type :=
| EvInitialize (config_path : string)
| EvParse (source : string)
| EvProcessRules
| EvLoadGraph (file : string)
| EvQuery (g : nat) (q : string) (yields : option nat)
| EvRemove (path : string).

Record world : Type := mkWorld {
  w_stdin : string;                  (* what the input stream holds *)
  w_stdout : list string;            (* one entry per [print] *)
  w_fs : gmap string string;         (* files: path to content *)
  w_reads : nat;                     (* clock reads so far *)
  w_patched : bool;                  (* Symbolic_predictions.load_graph is patched *)
  w_queries : list pyval;            (* the list [queries] of capture_sparql_queries *)
  w_graphs : list graph_obj;         (* graph objects, by handle *)
  w_results : list (list row);       (* result iterators, by handle: rows not yet read *)
  w_events : list event
}.

Definition set_stdout (f : list string -> list string) (w : world) : world :=
  mkWorld (w_stdin w) (f (w_stdout w)) (w_fs w) (w_reads w) (w_patched w)
          (w_queries w) (w_graphs w) (w_results w) (w_events w).
Definition set_fs (f : gmap string string -> gmap string string) (w : world) : world :=
  mkWorld (w_stdin w) (w_stdout w) (f (w_fs w)) (w_reads w) (w_patched w)
          (w_queries w) (w_graphs w) (w_results w) (w_events w).
Definition set_reads (f : nat -> nat) (w : world) : world :=
  mkWorld (w_stdin w) (w_stdout w) (w_fs w) (f (w_reads w)) (w_patched w)
          (w_queries w) (w_graphs w) (w_results w) (w_events w).
Definition set_patched (b : bool) (w : world) : world :=
  mkWorld (w_stdin w) (w_stdout w) (w_fs w) (w_reads w) b
          (w_queries w) (w_graphs w) (w_results w) (w_events w).
Definition set_queries (f : list pyval -> list pyval) (w : world) : world :=
  mkWorld (w_stdin w) (w_stdout w) (w_fs w) (w_reads w) (w_patched w)
          (f (w_queries w)) (w_graphs w) (w_results w) (w_events w).
Definition set_graphs (f : list graph_obj -> list graph_obj) (w : world) : world :=
  mkWorld (w_stdin w) (w_stdout w) (w_fs w) (w_reads w) (w_patched w)
          (w_queries w) (f (w_graphs w)) (w_results w) (w_events w).
Definition set_results (f : list (list row) -> list (list row)) (w : world) : world :=
  mkWorld (w_stdin w) (w_stdout w) (w_fs w) (w_reads w) (w_patched w)
          (w_queries w) (w_graphs w) (f (w_results w)) (w_events w).
Definition emit (ev : event) (w : world) : world :=
  mkWorld (w_stdin w) (w_stdout w) (w_fs w) (w_reads w) (w_patched w)
          (w_queries w) (w_graphs w) (w_results w) (w_events w ++ [ev]).

(** The process as it starts: nothing printed, no graph loaded, the engine
    module unpatched. *)
Definition initial_world (stdin : string) (fs : gmap string string) : world :=
  mkWorld stdin [] fs 0 false [] [] [] [].

(** How a computation ends: it returns, an exception propagates out of it,
    or [sys.exit] is unwinding the stack (SystemExit, which
    [except Exception] does not catch). *)
Inductive outcome (A : Type) : Type :=
| Returned (a : A)
| Raised (e : exn)
| Exiting (status : Z).
Arguments Returned {A} a.
Arguments Raised {A} e.
Arguments Exiting {A} status.

Definition M (A : Type) : Type := world -> outcome A * world.

#[global] Instance M_ret : MRet M := fun A a w => (Returned a, w).

#[global] Instance M_bind : MBind M := fun A B f m w =>
  match m w with
  | (Returned a, w') => f a w'
  | (Raised e, w') => (Raised e, w')
  | (Exiting n, w') => (Exiting n, w')
  end.

Definition raise {A} (e : exn) : M A := fun w => (Raised e, w).

(** [sys.exit(status)] *)
Definition sys_exit {A} (status : Z) : M A := fun w => (Exiting status, w).

Definition get {A} (proj : world -> A) : M A := fun w => (Returned (proj w), w).

Definition modify (f : world -> world) : M unit := fun w => (Returned tt, f w).

(** [try: body / except Exception as e: handler e] *)
Definition try_except {A} (body : M A) (handler : exn -> M A) : M A := fun w =>
  match body w with
  | (Raised e, w') => handler e w'
  | other => other
  end.

(** [try: body / finally: cleanup]: the cleanup runs however the body
    ends; the body's way of ending stands unless the cleanup itself raises
    or exits. *)
Definition try_finally {A} (body : M A) (cleanup : M unit) : M A := fun w =>
  let '(o, w') := body w in
  match cleanup w' with
  | (Returned _, w'') => (o, w'')
  | (Raised e, w'') => (Raised e, w'')
  | (Exiting n, w'') => (Exiting n, w'')
  end.

(** The status the process exits with: 0 when the script runs to its end,
    1 when an exception is never caught, the argument of [sys.exit]
    otherwise. *)
Definition exit_status {A} (o : outcome A) : Z :=
  match o with
  | Returned _ => 0
  | Raised _ => 1
  | Exiting n => n
  end.

(** [print(text)] *)
Definition print (text : string) : M unit := modify (set_stdout (fun out => out ++ [text])).

(** ** The engine and the other collaborators *)

(** What [Symbolic_predictions.initialize] returns, component by component. *)
Record Context : Type := mkContext {
  ctx_prefix : string;
  ctx_rulesfile : string;
  ctx_rdf_data : string;
  ctx_path : string;
  ctx_predictions_folder : string;
  ctx_constraints : string;
  ctx_kg : string;
  ctx_pca_threshold : Z
}.

(** What an engine routine does, seen from the adapter: it returns, raises
    an Exception, ends the process itself ([sys.exit(status)], or any other
    BaseException that is not an Exception, such as KeyboardInterrupt,
    which leaves the interpreter with [status]), or first calls
    [load_graph(file)] or [g.query(q)] and goes on from what that call gave
    it (a graph handle, the rows it read from the result) or raised. *)
Inductive engine_prog (R : Type) : Type :=
| Done (r : R)
| Fail (e : exn)
| Exit (status : Z)
| LoadGraph (file : string) (k : exn + nat -> engine_prog R)
| Query (g : nat) (q : string) (k : exn + list row -> engine_prog R).
Arguments Done {R} r.
Arguments Fail {R} e.
Arguments Exit {R} status.
Arguments LoadGraph {R} file k.
Arguments Query {R} g q k.

(** Everything the script takes from outside itself.  [json.load],
    [initialize], the N-Triples parser, the engine's loader and a query
    end by returning or by raising an Exception; [process_rules], the
    routine that runs the queries, may also end the process. *)
Record Env : Type := mkEnv {
  (* json.load on the text of the input stream *)
  json_load : string -> exn + pyval;
  (* the wall clock: its value at the n-th read *)
  clock : nat -> Z;
  (* the module global log_file, computed at import *)
  log_file : string;
  (* Symbolic_predictions.initialize, reading the staged configuration *)
  initialize : gmap string string -> string -> exn + Context;
  (* Graph().parse(source, format='nt') *)
  nt_parse : gmap string string -> string -> exn + Graph;
  (* Symbolic_predictions.load_graph as the engine defines it *)
  load_graph : string -> exn + Graph;
  (* rdflib's Graph.query: the rows or the exception, and the store after *)
  sparql : Graph -> string -> (exn + list row) * Graph;
  (* Symbolic_predictions.process_rules *)
  process_rules : string -> string -> string -> string -> string -> Z ->
                  engine_prog (option DataFrame * Graph)
}.

(** A query has no side effect when executing it leaves the store as it
    was. *)
Definition side_effect_free (E : Env) (G : Graph) (q : string) : Prop :=
  snd (sparql E G q) = G.

(** ** posixpath *)

Definition is_slash (c : ascii) : bool := Ascii.eqb c "/"%char.

Fixpoint drop_while (f : ascii -> bool) (l : list ascii) : list ascii :=
  match l with
  | [] => []
  | c :: l' => if f c then drop_while f l' else l
  end.

(** [os.path.dirname(p)] *)
Definition dirname (p : string) : string :=
  let head := rev (drop_while (fun c => negb (is_slash c)) (rev (list_ascii_of_string p))) in
  string_of_list_ascii
    (if forallb is_slash head then head else rev (drop_while is_slash (rev head))).

Definition starts_with_slash (s : string) : bool :=
  match s with
  | String c _ => is_slash c
  | EmptyString => false
  end.

Definition ends_with_slash (s : string) : bool :=
  match rev (list_ascii_of_string s) with
  | c :: _ => is_slash c
  | [] => false
  end.

(** [os.path.join(a, *parts)] *)
Definition path_join (a : string) (parts : list string) : string :=
  fold_left (fun path b =>
               if starts_with_slash b then b
               else if (String.eqb path "" || ends_with_slash path)%bool then path +:+ b
               else path +:+ "/" +:+ b)
            parts a.

(** ** Clock and files *)

(** [time.time()] *)
Definition time_time (E : Env) : M Z := fun w =>
  (Returned (clock E (w_reads w)), set_reads S w).

(** [datetime.isoformat]; the calendar rendering is not modelled, the text
    is the clock value in decimal. *)
Definition isoformat (t : Z) : string := pretty t.

(** [datetime.now().isoformat()] *)
Definition datetime_now_isoformat (E : Env) : M string := fun w =>
  (Returned (isoformat (clock E (w_reads w))), set_reads S w).

(** [json.load(sys.stdin)] *)
Definition json_load_stdin (E : Env) : M pyval := fun w =>
  match json_load E (w_stdin w) with
  | inl e => (Raised e, w)
  | inr v => (Returned v, w)
  end.

(** The [with tempfile.NamedTemporaryFile(mode='w', suffix='.json',
    delete=False)] block (lines 133-135): a file that did not exist is
    created, the configuration is written into it, and its name is kept.
    When [json.dump] raises, the exception leaves the block and the file
    stays where it is. *)
Definition stage_config (input_data : pyval) : M string := fun w =>
  let name := fresh (dom (w_fs w)) in
  let w1 := set_fs (insert name "") w in
  match json_dumps input_data with
  | inl e => (Raised e, w1)
  | inr text => (Returned name, set_fs (insert name text) w1)
  end.

(** [os.path.exists(path)] *)
Definition os_path_exists (path : string) : M bool :=
  get (fun w => bool_decide (is_Some (w_fs w !! path))).

(** [os.remove(path)] on an existing file. *)
Definition os_remove (path : string) : M unit :=
  modify (fun w => emit (EvRemove path) (set_fs (delete path) w)).

(** ** Query interceptor *)

Section Interceptor.

Variable E : Env.

(** The bound method [g.query] of rdflib, [original_query] in the source:
    it runs the query on the store of graph [g] and returns a new result
    iterator holding all the rows. *)
Definition original_query (g : nat) (query_object : string) : M nat := fun w =>
  match w_graphs w !! g with
  | None => (Raised (mkExn "AttributeError" "query"), w)
  | Some o =>
      let '(res, G') := sparql E (go_graph o) query_object in
      let w1 := set_graphs (fun gs => <[g := mkGraphObj G' (go_capturing o)]> gs) w in
      match res with
      | inl e => (Raised e, w1)
      | inr rows =>
          (Returned (length (w_results w1)), set_results (fun rs => rs ++ [rows]) w1)
      end
  end.

(** [list(results)]: reads every row that is left and leaves the iterator
    exhausted. *)
Definition list_of_results (results : nat) : M (list row) := fun w =>
  match w_results w !! results with
  | None => (Returned [], w)
  | Some rows => (Returned rows, set_results (fun rs => <[results := []]> rs) w)
  end.

(** [queries.append(record)] *)
Definition queries_append (record : pyval) : M unit :=
  modify (set_queries (fun queries => queries ++ [record])).

(** Lines 98-116.  The query object is its text, so [str(query_object)] is
    the object itself. *)
Definition capturing_query (g : nat) (query_object : string) : M nat :=
  let query_str := query_object in
  start_time ← time_time E;
  results ← original_query g query_object;
  results_list ← list_of_results results;
  end_time ← time_time E;
  timestamp ← datetime_now_isoformat E;
  queries_append
    (VDict [ ("query", VStr query_str);
             ("execution_time", VFloat (end_time - start_time));
             ("result_count", VInt (Z.of_nat (length results_list)));
             ("timestamp", VStr timestamp) ]);;
  original_query g query_object.

(** [original_load_graph(file)]: a new graph object with rdflib's own
    [query]. *)
Definition original_load_graph (file : string) : M nat := fun w =>
  let w1 := emit (EvLoadGraph file) w in
  match load_graph E file with
  | inl e => (Raised e, w1)
  | inr G =>
      (Returned (length (w_graphs w1)),
       set_graphs (fun gs => gs ++ [mkGraphObj G false]) w1)
  end.

(** Lines 92-119: [g.query = capturing_query]. *)
Definition patched_load_graph (file : string) : M nat :=
  g ← original_load_graph file;
  modify (set_graphs (fun gs =>
            match gs !! g with
            | Some o => <[g := mkGraphObj (go_graph o) true]> gs
            | None => gs
            end));;
  mret g.

(** Lines 86-122: a new empty list [queries], and the module attribute
    [load_graph] replaced. *)
Definition capture_sparql_queries : M unit :=
  modify (fun w => set_patched true (set_queries (fun _ => []) w)).

(** The engine calling [load_graph(file)]: the module attribute as it is
    at the time of the call. *)
Definition call_load_graph (file : string) : M nat := fun w =>
  if w_patched w then patched_load_graph file w else original_load_graph file w.

(** The engine calling [g.query(q)]: the instance attribute set by
    [patched_load_graph] when there is one, the method of the class
    otherwise. *)
Definition call_query (g : nat) (q : string) : M nat := fun w =>
  match w_graphs w !! g with
  | Some o => if go_capturing o then capturing_query g q w else original_query g q w
  | None => original_query g q w
  end.

(** What the query [q] yields on graph [g] as the store is in [w]. *)
Definition yields_now (g : nat) (q : string) (w : world) : option nat :=
  match w_graphs w !! g with
  | Some o =>
      match fst (sparql E (go_graph o) q) with
      | inr rows => Some (length rows)
      | inl _ => None
      end
  | None => None
  end.

(** Running an engine routine. *)
Fixpoint run_engine {R} (p : engine_prog R) : M R :=
  match p with
  | Done r => mret r
  | Fail e => raise e
  | Exit status => sys_exit status
  | LoadGraph file k => fun w =>
      match call_load_graph file w with
      | (Returned g, w') => run_engine (k (inr g)) w'
      | (Raised e, w') => run_engine (k (inl e)) w'
      | (Exiting n, w') => (Exiting n, w')
      end
  | Query g q k => fun w =>
      let w0 := emit (EvQuery g q (yields_now g q w)) w in
      match (results ← call_query g q; list_of_results results) w0 with
      | (Returned rows, w') => run_engine (k (inr rows)) w'
      | (Raised e, w') => run_engine (k (inl e)) w'
      | (Exiting n, w') => (Exiting n, w')
      end
  end.

End Interceptor.

(** ** Run orchestrator: [main] *)

Section Main.

Variable E : Env.

(** Lines 161-168: the loop over [result_df.iterrows()]; [new_triples] is
    the list built so far.  [row['subject']] may raise. *)
Fixpoint iterrows_loop (columns : list string) (rows : list (list pyval))
    (new_triples : list pyval) : exn + list pyval :=
  match rows with
  | [] => inr new_triples
  | row :: rows' =>
      match row_getitem columns row "subject" with
      | inl e => inl e
      | inr s =>
          match row_getitem columns row "predicate" with
          | inl e => inl e
          | inr p =>
              match row_getitem columns row "object" with
              | inl e => inl e
              | inr o =>
                  iterrows_loop columns rows'
                    (new_triples ++ [VDict [("subject", s); ("predicate", p); ("object", o)]])
              end
          end
      end
  end.

Definition collect_new_triples (result_df : option DataFrame) : exn + list pyval :=
  match result_df with
  | None => inr []
  | Some df => if empty df then inr [] else iterrows_loop (df_columns df) (iterrows df) []
  end.

Definition lift {A} (r : exn + A) : M A :=
  match r with
  | inl e => raise e
  | inr a => mret a
  end.

(** [total_triples] of a translated graph: [d["total_triples"]]. *)
Definition subscript (v : pyval) (k : string) : M pyval :=
  match field k v with
  | Some x => mret x
  | None => raise (KeyError k)
  end.

(** Lines 171-210: the dictionary [output], its entries evaluated in the
    order they are written. *)
Definition assemble_output (start_time : Z) (ctx : Context)
    (predictions_json initial_graph_json enriched_graph_json : pyval)
    (new_triples : list pyval) : M pyval :=
  now ← time_time E;
  timestamp ← datetime_now_isoformat E;
  initial_triples ← subscript initial_graph_json "total_triples";
  enriched_triples ← subscript enriched_graph_json "total_triples";
  captured_queries ← get w_queries;
  mret (VDict
    [ ("success", VBool true);
      ("execution_time", VFloat (now - start_time));
      ("timestamp", VStr timestamp);
      ("predictions_dataframe", predictions_json);
      ("new_triples", VList new_triples);
      ("graphs", VDict
         [ ("initial", initial_graph_json);
           ("enriched", enriched_graph_json);
           ("statistics", VDict
              [ ("initial_triples", initial_triples);
                ("enriched_triples", enriched_triples);
                ("predictions_added", VInt (Z.of_nat (length new_triples))) ]) ]);
      ("sparql_queries", VList captured_queries);
      ("output_files", VDict
         [ ("predictions_folder", VStr (ctx_predictions_folder ctx));
           ("enriched_kg_path",
            VStr (path_join (dirname (ctx_predictions_folder ctx))
                    [ctx_kg ctx +:+ "_EnrichedKG"; ctx_kg ctx +:+ "_Enriched_KG.nt"]));
           ("log_file", VStr (log_file E)) ]);
      ("summary", VDict
         [ ("total_predictions", VInt (Z.of_nat (length new_triples)));
           ("queries_executed", VInt (Z.of_nat (length captured_queries)));
           ("processing_successful", VBool true) ]) ]).

(** Lines 216-221: the dictionary [error_output]. *)
Definition error_output (e : exn) (timestamp : string) : pyval :=
  VDict [ ("success", VBool false);
          ("error", VStr (exn_str e));
          ("traceback", VStr (format_exc e));
          ("timestamp", VStr timestamp) ].

(** Lines 138-152: the three calls into the engine and the parse of the
    initial graph, up to the results of [process_rules]. *)
Definition engine_steps (temp_config_path : string)
    : M (Context * pyval * option DataFrame * Graph) :=
  modify (emit (EvInitialize temp_config_path));;
  ctx ← (fun w => lift (initialize E (w_fs w) temp_config_path) w);
  modify (emit (EvParse (ctx_rdf_data ctx)));;
  initial_graph ← (fun w => lift (nt_parse E (w_fs w) (ctx_rdf_data ctx)) w);
  let initial_graph_json := graph_to_json initial_graph (Some 100) in
  modify (emit EvProcessRules);;
  '(result_df, enriched_kg) ←
     run_engine E (process_rules E (ctx_rulesfile ctx) (ctx_prefix ctx) (ctx_rdf_data ctx)
                     (ctx_predictions_folder ctx) (ctx_kg ctx) (ctx_pca_threshold ctx));
  mret (ctx, initial_graph_json, result_df, enriched_kg).

(** Lines 154-210: translation of the results and assembly of [output]. *)
Definition translate (start_time : Z)
    (r : Context * pyval * option DataFrame * Graph) : M pyval :=
  let '(ctx, initial_graph_json, result_df, enriched_kg) := r in
  let predictions_json := dataframe_to_json result_df in
  let enriched_graph_json := graph_to_json enriched_kg (Some 1000) in
  new_triples ← lift (collect_new_triples result_df);
  assemble_output start_time ctx predictions_json initial_graph_json
    enriched_graph_json new_triples.

(** Lines 138-210: everything the [try] does before it prints. *)
Definition build_output (temp_config_path : string) : M pyval :=
  start_time ← time_time E;
  r ← engine_steps temp_config_path;
  translate start_time r.

(** The body of the [try] (lines 138-212); line 212 is
    [print(json.dumps(output, indent=2))]. *)
Definition try_body (temp_config_path : string) : M unit :=
  output ← build_output temp_config_path;
  text ← lift (json_dumps output);
  print text.

(** The [except Exception as e] handler (lines 215-223). *)
Definition except_handler (e : exn) : M unit :=
  timestamp ← datetime_now_isoformat E;
  text ← lift (json_dumps (error_output e timestamp));
  print text;;
  sys_exit 1.

(** The [finally] block (lines 226-227). *)
Definition finally_block (temp_config_path : string) : M unit :=
  there ← os_path_exists temp_config_path;
  if (there : bool) then os_remove temp_config_path else mret tt.

(** The [try] statement as a whole (lines 137-227). *)
Definition guarded_run (temp_config_path : string) : M unit :=
  try_finally
    (try_except (try_body temp_config_path) except_handler)
    (finally_block temp_config_path).

Definition main : M unit :=
  capture_sparql_queries;;
  input_data ← json_load_stdin E;
  temp_config_path ← stage_config input_data;
  guarded_run temp_config_path.

End Main.

(** ** Reading a run *)

(** The process status after [main]. *)
Definition run_status (E : Env) (w : world) : Z := exit_status (fst (main E w)).

(** The world the process leaves behind. *)
Definition run_world (E : Env) (w : world) : world := snd (main E w).

(** The two shapes of an envelope. *)
Definition success_keys : list string :=
  [ "success"; "execution_time"; "timestamp"; "predictions_dataframe"; "new_triples";
    "graphs"; "sparql_queries"; "output_files"; "summary" ].

Definition failure_keys : list string := [ "success"; "error"; "traceback"; "timestamp" ].

Definition success_envelope (v : pyval) : Prop :=
  exists d, v = VDict d /\ dict_keys d = success_keys /\ dict_get "success" d = Some (VBool true).

Definition failure_envelope (v : pyval) : Prop :=
  exists d error traceback timestamp,
    v = VDict d /\ dict_keys d = failure_keys /\
    d = [ ("success", VBool false); ("error", VStr error);
          ("traceback", VStr traceback); ("timestamp", VStr timestamp) ].

(** An engine capability was invoked. *)
Definition is_engine_call (ev : event) : bool :=
  match ev with
  | EvInitialize _ | EvProcessRules | EvLoadGraph _ | EvQuery _ _ _ => true
  | EvParse _ | EvRemove _ => false
  end.

(** How many times [os.remove(path)] was called. *)
Definition is_removal (path : string) (ev : event) : bool :=
  match ev with
  | EvRemove p => String.eqb p path
  | _ => false
  end.

Definition removals (path : string) (evs : list event) : nat :=
  length (filter (fun ev => is_removal path ev = true) evs).

(** ** A small environment to run the script in *)

Module Sample.

Definition ex : string -> term := fun name => URIRef ("http://example.org/" +:+ name).

Definition alice_knows_bob : triple := (ex "alice", ex "knows", ex "bob").
Definition alice_name : triple := (ex "alice", ex "name", Literal "Alice" None None).
Definition bob_age : triple :=
  (ex "bob", ex "age", Literal "42" (Some "http://www.w3.org/2001/XMLSchema#integer") None).
Definition bob_label : triple := (ex "bob", ex "label", Literal "Bob" None (Some "en")).

Definition kg_graph : Graph :=
  mkGraph [alice_knows_bob; alice_name; bob_age]
          [("ex", "http://example.org/"); ("xsd", "http://www.w3.org/2001/XMLSchema#")].

Definition enriched_graph : Graph :=
  mkGraph [alice_knows_bob; alice_name; bob_age; (ex "bob", ex "knows", ex "alice")]
          (g_namespaces kg_graph).

(** Two predictions, with a column the adapter does not read. *)
Definition predictions : DataFrame :=
  mkDataFrame ["subject"; "predicate"; "object"; "confidence"]
              [ObjectDtype; ObjectDtype; ObjectDtype; Int64]
              [ [VStr "ex:bob"; VStr "ex:knows"; VStr "ex:alice"; VInt 1];
                [VStr "ex:bob"; VStr "ex:likes"; VStr "ex:carol"; VInt 2] ]
              (fun cell => cell).

(** A table of node numbers: every column is int64, so [iterrows] yields
    numpy.int64 scalars while [to_dict('records')] yields Python ints. *)
Definition numpy_predictions : DataFrame :=
  mkDataFrame ["subject"; "predicate"; "object"]
              [Int64; Int64; Int64]
              [ [VInt 7; VInt 1; VInt 9] ]
              (fun cell => match cell with
                           | VInt _ => VObject "int64"
                           | _ => cell
                           end).

Definition context : Context :=
  mkContext "http://example.org/" "rules.csv" "kg.nt" "data" "out/Predictions" "none"
            "demo" 5.

(** A parser that knows the empty configuration and rejects the rest. *)
Definition json_load (text : string) : exn + pyval :=
  if String.eqb text "{}" then inr (VDict [])
  else inl (mkExn "JSONDecodeError" "Expecting value: line 1 column 1 (char 0)").

(** Every query selects the subjects of the store; an empty query text is
    a syntax error. *)
Definition sparql (G : Graph) (q : string) : (exn + list row) * Graph :=
  if String.eqb q "" then (inl (mkExn "ParseException" "Expected SelectQuery"), G)
  else (inr (map (fun t : triple => [fst (fst t)]) (g_triples G)), G).

(** A query that also drops the first triple of the store. *)
Definition consuming_sparql (G : Graph) (q : string) : (exn + list row) * Graph :=
  (inr (map (fun t : triple => [fst (fst t)]) (g_triples G)),
   mkGraph (tail (g_triples G)) (g_namespaces G)).

(** [process_rules]: loads the graph, runs a query that fails and two that
    succeed, and returns [table] with the enriched graph. *)
Definition rules (table : option DataFrame)
    : engine_prog (option DataFrame * Graph) :=
  LoadGraph "kg.nt" (fun loaded =>
    match loaded with
    | inl e => Fail e
    | inr g =>
        Query g "SELECT ?s WHERE { ?s ?p ?o }" (fun _ =>
        Query g "" (fun _ =>
        Query g "SELECT ?s WHERE { ?s a ?c }" (fun _ =>
        Done (table, enriched_graph))))
    end).

Definition env_with (table : option DataFrame) : Env :=
  mkEnv json_load (fun n => 1000 + 3 * Z.of_nat n) "logs/full_data_20260101-120000.log"
        (fun fs path => match fs !! path with
                        | Some _ => inr context
                        | None => inl (mkExn "FileNotFoundError" path)
                        end)
        (fun _ _ => inr kg_graph)
        (fun _ => inr kg_graph)
        sparql
        (fun _ _ _ _ _ _ => rules table).

Definition env : Env := env_with (Some predictions).

(** An engine whose [initialize] fails. *)
Definition failing_env : Env :=
  mkEnv json_load (clock env) (log_file env)
        (fun _ _ => inl (mkExn "KeyError" "'KG'"))
        (nt_parse env) (load_graph env) sparql (process_rules env).

(** An engine whose queries change the store. *)
Definition consuming_env : Env :=
  mkEnv json_load (clock env) (log_file env) (initialize env) (nt_parse env)
        (load_graph env) consuming_sparql (process_rules env).

End Sample.

(** ** The specification's sentences on [graph_to_json], as written *)

(** "For all graphs and any limit >= 0, length(triples) == min(limit,
    total_triples)", with [total_triples] the size of the store and
    [limited_to] the limit. *)
Definition truncation_as_specified (g : Graph) (limit : Z) : Prop :=
  exists triples,
    field "triples" (graph_to_json g (Some limit)) = Some (VList triples) /\
    Z.of_nat (length triples) = Z.min limit (graph_len g) /\
    field "total_triples" (graph_to_json g (Some limit)) = Some (VInt (graph_len g)) /\
    field "limited_to" (graph_to_json g (Some limit)) = Some (VInt limit).

(** "object_type is "literal" iff the object term carries a
    datatype/language discriminator", the discriminator being a datatype or
    language tag on the term. *)
Definition object_type_as_specified (t : triple) : Prop :=
  field "object_type" (triple_entry t) = Some (VStr "literal") <-> carries_tag (snd t) = true.

(** ** Reading a prediction table *)

(** The translation of an absent or empty table. *)
Definition empty_table_json : pyval :=
  VDict [ ("columns", VList []); ("data", VList []); ("shape", VList [VInt 0; VInt 0]) ].

(** The cell of [row] in the column called [label]. *)
Definition cell (columns : list string) (row : list pyval) (label : string) : option pyval :=
  dict_get label (zip columns row).

(** [entry] is the subject/predicate/object dictionary of the row [row]
    of the table [d]: it holds the row's cells in these three columns, as
    [iterrows] presents them, and nothing else. *)
Definition triple_of_row (d : DataFrame) (row : list pyval) (entry : pyval) : Prop :=
  exists s p o,
    cell (df_columns d) row "subject" = Some s /\
    cell (df_columns d) row "predicate" = Some p /\
    cell (df_columns d) row "object" = Some o /\
    entry = VDict [ ("subject", df_item d s); ("predicate", df_item d p);
                    ("object", df_item d o) ].

(** The table has the three columns the adapter reads. *)
Definition has_spo_columns (df : DataFrame) : Prop :=
  "subject" ∈ df_columns df /\ "predicate" ∈ df_columns df /\ "object" ∈ df_columns df.

(** ** What a step may leave untouched *)

(** Between [w] and [w'] nothing was printed, no file changed, no file was
    removed, and the input stream and the patch of the engine module are as
    they were. *)
Definition quiet (w w' : world) : Prop :=
  w_stdin w' = w_stdin w /\
  w_stdout w' = w_stdout w /\
  w_fs w' = w_fs w /\
  w_patched w' = w_patched w /\
  forall path, removals path (w_events w') = removals path (w_events w).

(** A computation that is quiet from every world. *)
Definition Quiet {A} (m : M A) : Prop := forall w, quiet w (snd (m w)).

(** A computation that never ends in [sys.exit]. *)
Definition NoExit {A} (m : M A) : Prop := forall w n, fst (m w) <> Exiting n.

(** The world after [print(text)]. *)
Definition printed (text : string) (w : world) : world :=
  set_stdout (fun out => out ++ [text]) w.

(** The world after [os.remove(path)]. *)
Definition cleaned (path : string) (w : world) : world :=
  emit (EvRemove path) (set_fs (delete path) w).

(** The text the handler prints for [e] when it starts in [w]. *)
Definition failure_text (E : Env) (e : exn) (w : world) : string :=
  match json_dumps (error_output e (isoformat (clock E (w_reads w)))) with
  | inr text => text
  | inl _ => ""
  end.

(** The call of lines 150-152. *)
Definition process_rules_call (E : Env) (ctx : Context)
    : engine_prog (option DataFrame * Graph) :=
  process_rules E (ctx_rulesfile ctx) (ctx_prefix ctx) (ctx_rdf_data ctx)
    (ctx_predictions_folder ctx) (ctx_kg ctx) (ctx_pca_threshold ctx).

(** The world in which [process_rules] is called when the [try] body
    started its engine steps in [w] on the staged file [path]. *)
Definition at_process_rules (path : string) (ctx : Context) (w : world) : world :=
  emit EvProcessRules (emit (EvParse (ctx_rdf_data ctx)) (emit (EvInitialize path) w)).

(** The name [stage_config] picks in [w]. *)
Definition temp_name (w : world) : string := fresh (dom (w_fs w)).

(** The world in which the [try] statement starts: [queries] is empty, the
    engine module is patched and the staged file holds [config]. *)
Definition staged (w : world) (config : string) : world :=
  set_fs (insert (temp_name w) config)
    (set_fs (insert (temp_name w) "")
       (set_patched true (set_queries (fun _ => []) w))).

(** ** Reading the captured log *)

(** The engine module is patched and every graph object on the heap went
    through [patched_load_graph]. *)
Definition instrumented (w : world) : Prop :=
  w_patched w = true /\ Forall (fun o => go_capturing o = true) (w_graphs w).

(** The queries that were executed to a result, in call order, each with
    the number of rows it yielded. *)
Definition executed (evs : list event) : list (string * Z) :=
  omap (fun ev => match ev with
                  | EvQuery _ q (Some n) => Some (q, Z.of_nat n)
                  | _ => None
                  end) evs.



(** The query text and the result count a record holds. *)
Definition record_summary (record : pyval) : option (string * Z) :=
  match field "query" record, field "result_count" record with
  | Some (VStr q), Some (VInt n) => Some (q, n)
  | _, _ => None
  end.

(** A Captured Query Record: query text, elapsed time, result count and
    capture timestamp, under these four keys. *)
Definition captured_record (record : pyval) : Prop :=
  exists q elapsed n timestamp,
    record = VDict [ ("query", VStr q); ("execution_time", VFloat elapsed);
                     ("result_count", VInt n); ("timestamp", VStr timestamp) ].

(** ** More sample data *)

Module MoreSamples.

(** A prediction table whose first column is not called "subject". *)
Definition no_subject : DataFrame :=
  mkDataFrame ["s"; "predicate"; "object"]
              [ObjectDtype; ObjectDtype; ObjectDtype]
              [ [VStr "ex:bob"; VStr "ex:knows"; VStr "ex:alice"] ]
              (fun cell => cell).

(** A table with the three columns and no row. *)
Definition no_rows : DataFrame :=
  mkDataFrame ["subject"; "predicate"; "object"]
              [ObjectDtype; ObjectDtype; ObjectDtype] [] (fun cell => cell).

(** A table in which two columns are called "subject". *)
Definition two_subjects : DataFrame :=
  mkDataFrame ["subject"; "subject"; "predicate"; "object"]
              [ObjectDtype; ObjectDtype; ObjectDtype; ObjectDtype]
              [ [VStr "ex:bob"; VStr "ex:dan"; VStr "ex:knows"; VStr "ex:alice"] ]
              (fun cell => cell).

(** An engine routine that loads two graphs and queries both. *)
Definition two_graphs : engine_prog (option DataFrame * Graph) :=
  LoadGraph "kg.nt" (fun first =>
  LoadGraph "rules.nt" (fun second =>
    match first, second with
    | inr g1, inr g2 =>
        Query g2 "ASK { ?s ?p ?o }" (fun _ =>
        Query g1 "SELECT ?o WHERE { ?s ?p ?o }" (fun _ =>
        Done (None, Sample.enriched_graph)))
    | _, _ => Fail (mkExn "IOError" "cannot load")
    end)).

(** The sample engine running [two_graphs]. *)
Definition two_graph_env : Env :=
  mkEnv Sample.json_load (clock Sample.env) (log_file Sample.env) (initialize Sample.env)
        (nt_parse Sample.env) (load_graph Sample.env) Sample.sparql
        (fun _ _ _ _ _ _ => two_graphs).

(** The sample engine with an initial graph that does not parse. *)
Definition unparsable_env : Env :=
  mkEnv Sample.json_load (clock Sample.env) (log_file Sample.env) (initialize Sample.env)
        (fun _ source => inl (mkExn "ParserError" ("Invalid line in " +:+ source)))
        (load_graph Sample.env) Sample.sparql (process_rules Sample.env).

(** An engine routine that loads the graph, runs one query and then ends
    the process with [sys.exit(3)]. *)
Definition exiting_rules : engine_prog (option DataFrame * Graph) :=
  LoadGraph "kg.nt" (fun loaded =>
    match loaded with
    | inl e => Fail e
    | inr g => Query g "ASK { ?s ?p ?o }" (fun _ => Exit 3)
    end).

(** The sample engine running [exiting_rules]. *)
Definition exiting_env : Env :=
  mkEnv Sample.json_load (clock Sample.env) (log_file Sample.env) (initialize Sample.env)
        (nt_parse Sample.env) (load_graph Sample.env) Sample.sparql
        (fun _ _ _ _ _ _ => exiting_rules).

End MoreSamples.

(** ** Values the json encoder accepts *)

(** [json.dumps(v)] returns a text. *)
Definition serializable (v : pyval) : Prop := exists text, json_dumps v = inr text.

(** ** The success document in closed form *)

(** The dictionary [output] of lines 171-210 for a run that started at
    [start_time], read the clock as [now] and [timestamp] at assembly,
    parsed the initial graph [G0], got [result_df] and [enriched_kg] from
    the engine, collected [new_triples] and found [captured_queries] in the
    log. *)
Definition success_output (E : Env) (start_time now : Z) (timestamp : string)
    (ctx : Context) (G0 : Graph) (result_df : option DataFrame) (enriched_kg : Graph)
    (new_triples captured_queries : list pyval) : pyval :=
  VDict
    [ ("success", VBool true);
      ("execution_time", VFloat (now - start_time));
      ("timestamp", VStr timestamp);
      ("predictions_dataframe", dataframe_to_json result_df);
      ("new_triples", VList new_triples);
      ("graphs", VDict
         [ ("initial", graph_to_json G0 (Some 100));
           ("enriched", graph_to_json enriched_kg (Some 1000));
           ("statistics", VDict
              [ ("initial_triples", VInt (graph_len G0));
                ("enriched_triples", VInt (graph_len enriched_kg));
                ("predictions_added", VInt (Z.of_nat (length new_triples))) ]) ]);
      ("sparql_queries", VList captured_queries);
      ("output_files", VDict
         [ ("predictions_folder", VStr (ctx_predictions_folder ctx));
           ("enriched_kg_path",
            VStr (path_join (dirname (ctx_predictions_folder ctx))
                    [ctx_kg ctx +:+ "_EnrichedKG"; ctx_kg ctx +:+ "_Enriched_KG.nt"]));
           ("log_file", VStr (log_file E)) ]);
      ("summary", VDict
         [ ("total_predictions", VInt (Z.of_nat (length new_triples)));
           ("queries_executed", VInt (Z.of_nat (length captured_queries)));
           ("processing_successful", VBool true) ]) ].

(** The table the engine returned is absent, or is well formed with cells
    the encoder accepts as [to_dict('records')] hands them out and, unless
    it is empty, has the three columns under pairwise distinct labels and
    cells the encoder also accepts as [iterrows] presents them. *)
Definition usable_table (result_df : option DataFrame) : Prop :=
  forall d, result_df = Some d ->
    well_formed d /\ Forall (Forall serializable) (df_rows d) /\
    (empty d = true \/
     (NoDup (df_columns d) /\ has_spo_columns d /\
      Forall (Forall serializable) (iterrows d))).

(** * Properties *)

(** ** Dictionaries *)

Section DictFacts.

Implicit Types (k : string) (v : pyval) (d : dict).

Lemma dict_get_set_eq k v d : dict_get k (dict_set k v d) = Some v.
Proof.
  induction d as [|[k' v'] d IH]; simpl.
  - by rewrite String.eqb_refl.
  - destruct (String.eqb k k') eqn:Hk; simpl; rewrite ?String.eqb_refl, ?Hk; done.
Qed.

Lemma dict_get_set_ne k k' v d : k' <> k -> dict_get k' (dict_set k v d) = dict_get k' d.
Proof.
  intros Hne. induction d as [|[k0 v0] d IH]; simpl.
  - destruct (String.eqb_spec k' k); congruence.
  - destruct (String.eqb_spec k k0) as [->|Hk0]; simpl.
    + destruct (String.eqb_spec k' k0); congruence.
    + destruct (String.eqb_spec k' k0); auto.
Qed.

Lemma dict_get_app k (d1 d2 : dict) :
  dict_get k (d1 ++ d2) = match dict_get k d1 with
                          | Some v => Some v
                          | None => dict_get k d2
                          end.
Proof.
  induction d1 as [|[k' v'] d1 IH]; simpl; [done|].
  destruct (String.eqb k k'); auto.
Qed.

Lemma dict_get_Some_elem k v d : dict_get k d = Some v -> (k, v) ∈ d.
Proof.
  induction d as [|[k' v'] d IH]; simpl; [done|].
  destruct (String.eqb_spec k k') as [->|Hne].
  - intros [= ->]. left.
  - intros H. right. auto.
Qed.

Lemma dict_get_is_Some k d : is_Some (dict_get k d) <-> k ∈ dict_keys d.
Proof.
  unfold dict_keys. induction d as [|[k' v'] d IH]; simpl.
  - split; [intros [? [=]] | intros H; inversion H].
  - destruct (String.eqb_spec k k') as [->|Hne].
    + split; [intros _; left | eauto].
    + rewrite IH. split; [intros H; by right | intros H].
      inversion H; subst; [congruence | done].
Qed.

Lemma dict_keys_set k v d :
  forall k', k' ∈ dict_keys (dict_set k v d) <-> k' = k \/ k' ∈ dict_keys d.
Proof.
  intros k'. rewrite <- !dict_get_is_Some.
  destruct (decide (k' = k)) as [->|Hne].
  - rewrite dict_get_set_eq. split; eauto.
  - rewrite dict_get_set_ne by done. split; [auto | intros [?|?]; [done | auto]].
Qed.

Lemma dict_keys_set_NoDup k v d : NoDup (dict_keys d) -> NoDup (dict_keys (dict_set k v d)).
Proof.
  unfold dict_keys. induction d as [|[k' v'] d IH]; simpl; intros Hnd.
  - apply NoDup_singleton.
  - inversion Hnd as [|? ? Hnotin Hnd']; subst.
    destruct (String.eqb_spec k k') as [->|Hne]; simpl.
    + by constructor.
    + constructor; [|auto].
      intros Hin. apply (dict_keys_set k v d k') in Hin as [?|?]; [congruence | done].
Qed.

(** A dictionary built from pairs holds, under each key, the last value
    paired with it. *)
Lemma dict_get_fold_set (kvs : list (string * pyval)) d k :
  dict_get k (fold_left (fun d kv => dict_set (fst kv) (snd kv) d) kvs d)
  = match dict_get k (rev kvs) with
    | Some v => Some v
    | None => dict_get k d
    end.
Proof.
  revert d. induction kvs as [|[k0 v0] kvs IH]; intros d; simpl; [done|].
  rewrite IH, dict_get_app. destruct (dict_get k (rev kvs)); [done|]. simpl.
  destruct (String.eqb_spec k k0) as [->|Hne].
  - by rewrite dict_get_set_eq.
  - by rewrite dict_get_set_ne.
Qed.

Lemma dict_get_of_pairs kvs k : dict_get k (dict_of_pairs kvs) = dict_get k (rev kvs).
Proof.
  unfold dict_of_pairs. rewrite dict_get_fold_set. by destruct (dict_get k (rev kvs)).
Qed.

Lemma dict_keys_fold_NoDup (kvs : list (string * pyval)) d :
  NoDup (dict_keys d) ->
  NoDup (dict_keys (fold_left (fun d kv => dict_set (fst kv) (snd kv) d) kvs d)).
Proof.
  revert d. induction kvs as [|kv kvs IH]; intros d Hd; simpl; [done|].
  apply IH, dict_keys_set_NoDup, Hd.
Qed.

Lemma dict_keys_of_pairs kvs k : k ∈ dict_keys (dict_of_pairs kvs) <-> k ∈ map fst kvs.
Proof.
  rewrite <- dict_get_is_Some, dict_get_of_pairs, dict_get_is_Some.
  unfold dict_keys. rewrite map_rev, !list_elem_of_In, <- in_rev. done.
Qed.

Lemma dict_keys_of_pairs_NoDup kvs : NoDup (dict_keys (dict_of_pairs kvs)).
Proof. apply dict_keys_fold_NoDup. constructor. Qed.

End DictFacts.

Section MoreDictFacts.

Lemma dict_set_fresh (k : string) (v : pyval) (d : dict) :
  k ∉ dict_keys d -> dict_set k v d = d ++ [(k, v)].
Proof.
  unfold dict_keys. induction d as [|[k' v'] d IH]; simpl; intros Hk; [done|].
  apply not_elem_of_cons in Hk as [Hne Hk].
  destruct (String.eqb_spec k k'); [done|]. by rewrite IH.
Qed.

(** Pairs with distinct keys are stored as they come. *)
Lemma fold_set_distinct (kvs : list (string * pyval)) (d : dict) :
  NoDup (dict_keys d ++ map fst kvs) ->
  fold_left (fun d kv => dict_set (fst kv) (snd kv) d) kvs d = d ++ kvs.
Proof.
  revert d. induction kvs as [|[k v] kvs IH]; intros d Hnd; simpl.
  - by rewrite app_nil_r.
  - simpl in Hnd. rewrite dict_set_fresh.
    + rewrite IH; [by rewrite <- app_assoc|].
      unfold dict_keys. rewrite map_app. simpl. by rewrite <- app_assoc.
    + apply NoDup_app in Hnd as (_ & Hdisj & _). intros Hin.
      apply (Hdisj k Hin). left.
Qed.

Lemma dict_of_pairs_distinct (kvs : list (string * pyval)) :
  NoDup (map fst kvs) -> dict_of_pairs kvs = kvs.
Proof. intros H. unfold dict_of_pairs. by rewrite fold_set_distinct. Qed.

Lemma dict_get_distinct_lookup (kvs : list (string * pyval)) i k v :
  NoDup (map fst kvs) -> kvs !! i = Some (k, v) -> dict_get k kvs = Some v.
Proof.
  revert i. induction kvs as [|[k' v'] kvs IH]; intros i Hnd Hi; [done|].
  simpl in Hnd. inversion Hnd as [|? ? Hnotin Hnd']; subst.
  destruct i as [|i]; simpl in *.
  - injection Hi as -> ->. by rewrite String.eqb_refl.
  - destruct (String.eqb_spec k k') as [->|Hne]; [|by eapply IH].
    exfalso. apply Hnotin. apply list_elem_of_In, in_map_iff.
    exists (k', v). split; [done|]. apply list_elem_of_In. by eapply list_elem_of_lookup_2.
Qed.

End MoreDictFacts.

(** ** The json encoder on lists and dictionaries *)

Section Encoder.

Lemma serializable_list (items : list pyval) :
  Forall serializable items -> serializable (VList items).
Proof.
  intros Hall. unfold serializable. simpl.
  assert (Heach : exists parts,
            (fix each (l : list pyval) : exn + list string :=
               match l with
               | [] => inr []
               | x :: l' =>
                   match json_dumps x with
                   | inl e => inl e
                   | inr a => match each l' with
                              | inl e => inl e
                              | inr b => inr (a :: b)
                              end
                   end
               end) items = inr parts).
  { induction Hall as [|x l [a Ha] _ [b Hb]]; [by eexists|].
    rewrite Ha, Hb. by eexists. }
  destruct Heach as [parts ->]. by eexists.
Qed.

Lemma serializable_dict (items : dict) :
  Forall (fun kv => serializable (snd kv)) items -> serializable (VDict items).
Proof.
  intros Hall. unfold serializable. simpl.
  assert (Heach : exists parts,
            (fix each (l : list (string * pyval)) : exn + list string :=
               match l with
               | [] => inr []
               | (k, x) :: l' =>
                   match json_dumps x with
                   | inl e => inl e
                   | inr a => match each l' with
                              | inl e => inl e
                              | inr b => inr ((dquote +:+ k +:+ dquote +:+ ": " +:+ a) :: b)
                              end
                   end
               end) items = inr parts).
  { induction Hall as [|[k x] l [a Ha] _ [b Hb]]; [by eexists|].
    simpl in Ha. rewrite Ha, Hb. by eexists. }
  destruct Heach as [parts ->]. by eexists.
Qed.

(** The encoder accepts a list only if it accepts every element. *)
Lemma serializable_list_inv (items : list pyval) :
  serializable (VList items) -> Forall serializable items.
Proof.
  intros [text Ht]. simpl in Ht.
  match type of Ht with
  | context [match ?f items with _ => _ end] =>
      destruct (f items) as [e|parts] eqn:Hl; [done|]; clear Ht; revert parts Hl
  end.
  induction items as [|x items IH]; intros parts Hl; [constructor|].
  destruct (json_dumps x) as [e|a] eqn:Hx; [done|].
  match type of Hl with
  | context [match ?f items with _ => _ end] =>
      destruct (f items) as [e|b] eqn:Hrest; [done|]
  end.
  constructor; [by exists a | by apply (IH b)].
Qed.

(** The encoder accepts a dictionary only if it accepts every value. *)
Lemma serializable_dict_inv (items : dict) :
  serializable (VDict items) -> Forall (fun kv => serializable (snd kv)) items.
Proof.
  intros [text Ht]. simpl in Ht.
  match type of Ht with
  | context [match ?f items with _ => _ end] =>
      destruct (f items) as [e|parts] eqn:Hl; [done|]; clear Ht; revert parts Hl
  end.
  induction items as [|[k x] items IH]; intros parts Hl; [constructor|].
  destruct (json_dumps x) as [e|a] eqn:Hx; [done|].
  match type of Hl with
  | context [match ?f items with _ => _ end] =>
      destruct (f items) as [e|b] eqn:Hrest; [done|]
  end.
  constructor; [by exists a | by apply (IH b)].
Qed.

Lemma unserializable_list (items : list pyval) (x : pyval) :
  x ∈ items -> ~ serializable x -> ~ serializable (VList items).
Proof.
  intros Hin Hx Hs. apply Hx.
  by apply (proj1 (Forall_forall _ _) (serializable_list_inv items Hs)).
Qed.

Lemma unserializable_object repr : ~ serializable (VObject repr).
Proof. by intros [text [=]]. Qed.

Lemma serializable_str s : serializable (VStr s).
Proof. by eexists. Qed.

Lemma serializable_int n : serializable (VInt n).
Proof. by eexists. Qed.

Lemma dict_set_values (P : pyval -> Prop) k v (d : dict) :
  P v -> Forall (fun kv => P (snd kv)) d -> Forall (fun kv => P (snd kv)) (dict_set k v d).
Proof.
  intros Hv. induction 1 as [|[k' v'] d Hkv Hd IH]; simpl.
  - by repeat constructor.
  - destruct (String.eqb k k'); constructor; auto.
Qed.

Lemma fold_set_values (P : pyval -> Prop) (kvs : list (string * pyval)) (d : dict) :
  Forall (fun kv => P (snd kv)) kvs -> Forall (fun kv => P (snd kv)) d ->
  Forall (fun kv => P (snd kv)) (fold_left (fun d kv => dict_set (fst kv) (snd kv) d) kvs d).
Proof.
  intros Hkvs. revert d. induction Hkvs as [|kv kvs Hkv _ IH]; intros d Hd; simpl; [done|].
  apply IH. by apply dict_set_values.
Qed.

End Encoder.

(** ** [graph_to_json]: truncation *)

Section GraphToJson.

(** With a limit that is false in a condition ([None] or [0]) the loop
    never breaks. *)
Lemma triples_loop_unlimited limit rest triples count :
  limit_truthy limit = false ->
  triples_loop limit rest triples count = triples ++ map triple_entry rest.
Proof.
  intros Hl. revert triples count.
  induction rest as [|t rest IH]; intros triples count; simpl.
  - by rewrite app_nil_r.
  - replace (limit_reached limit (count + 1)) with false.
    + rewrite IH, <- app_assoc. done.
    + destruct limit as [n|]; simpl in *; [|done].
      apply negb_false_iff in Hl. by rewrite Hl.
Qed.

(** With a limit [n >= 1] the loop stops once [count] reaches [n]. *)
Lemma triples_loop_limited n rest triples count :
  0 <= count < n ->
  triples_loop (Some n) rest triples count
  = triples ++ map triple_entry (take (Z.to_nat (n - count)) rest).
Proof.
  revert triples count.
  induction rest as [|t rest IH]; intros triples count Hc; simpl.
  - by rewrite take_nil, app_nil_r.
  - assert (Hn0 : (n =? 0) = false) by lia. rewrite Hn0. simpl.
    replace (Z.to_nat (n - count)) with (S (Z.to_nat (n - (count + 1)))) by lia.
    simpl. destruct (Z.leb_spec n (count + 1)) as [Hle|Hgt].
    + replace (Z.to_nat (n - (count + 1))) with 0%nat by lia.
      by rewrite take_0.
    + rewrite IH by lia. by rewrite <- app_assoc.
Qed.

(** A negative limit is true in a condition and already reached after the
    first triple. *)
Lemma triples_loop_negative n rest :
  n < 0 -> triples_loop (Some n) rest [] 0 = map triple_entry (take 1 rest).
Proof.
  intros Hn. destruct rest as [|t rest]; simpl; [done|].
  assert (Hn0 : (n =? 0) = false) by lia. rewrite Hn0. simpl.
  destruct (Z.leb_spec n (0 + 1)); [done | lia].
Qed.

(** The emitted list is a prefix of the store's enumeration. *)
Lemma graph_to_json_triples g limit :
  field "triples" (graph_to_json g limit)
  = Some (VList (map triple_entry
                   (match limit with
                    | None => g_triples g
                    | Some n => if n =? 0 then g_triples g
                                else take (Z.to_nat (Z.max 1 n)) (g_triples g)
                    end))).
Proof.
  unfold graph_to_json, field. simpl. do 3 f_equal.
  destruct limit as [n|].
  - destruct (Z.eqb_spec n 0) as [->|Hn0].
    + by rewrite triples_loop_unlimited.
    + destruct (Z.lt_ge_cases n 0).
      * rewrite triples_loop_negative by done.
        by replace (Z.to_nat (Z.max 1 n)) with 1%nat by lia.
      * rewrite triples_loop_limited by lia. simpl.
        by replace (Z.to_nat (Z.max 1 n)) with (Z.to_nat (n - 0)) by lia.
  - by rewrite triples_loop_unlimited.
Qed.

(** C1, as the code has it.  For every graph: [total_triples] is the size
    of the store whatever the limit; with a limit [n >= 1] the emitted list
    has [min n total_triples] entries, the first ones of the enumeration,
    and [limited_to] is [n]; with the limit [0], as with no limit at all,
    every triple is emitted and [limited_to] is null. *)
Theorem graph_to_json_truncation (g : Graph) (limit : option Z) :
  (forall n, limit = Some n -> 0 <= n) ->
  exists triples,
    field "triples" (graph_to_json g limit) = Some (VList triples) /\
    field "total_triples" (graph_to_json g limit) = Some (VInt (graph_len g)) /\
    match limit with
    | Some n =>
        if 1 <=? n then
          triples = map triple_entry (take (Z.to_nat n) (g_triples g)) /\
          Z.of_nat (length triples) = Z.min n (graph_len g) /\
          field "limited_to" (graph_to_json g limit) = Some (VInt n)
        else
          triples = map triple_entry (g_triples g) /\
          Z.of_nat (length triples) = graph_len g /\
          field "limited_to" (graph_to_json g limit) = Some VNone
    | None =>
        triples = map triple_entry (g_triples g) /\
        Z.of_nat (length triples) = graph_len g /\
        field "limited_to" (graph_to_json g limit) = Some VNone
    end.
Proof.
  intros Hnonneg. eexists. split; [apply graph_to_json_triples|].
  split; [done|]. unfold graph_len.
  destruct limit as [n|]; [|by rewrite length_map].
  specialize (Hnonneg n eq_refl).
  destruct (Z.leb_spec 1 n) as [H1|H1].
  - assert (Hn0 : (n =? 0) = false) by lia. rewrite Hn0.
    replace (Z.to_nat (Z.max 1 n)) with (Z.to_nat n) by lia.
    split; [done|]. split.
    + rewrite length_map, length_take. lia.
    + unfold graph_to_json, field, limit_truthy. simpl. by rewrite Hn0.
  - assert (n = 0) as -> by lia. simpl. by rewrite length_map.
Qed.

Lemma graph_to_json_truncation_witness :
  exists triples,
    field "triples" (graph_to_json Sample.kg_graph (Some 2)) = Some (VList triples) /\
    length triples = 2%nat.
Proof.
  destruct (graph_to_json_truncation Sample.kg_graph (Some 2)) as (triples & Ht & _ & Hl).
  - intros n [= <-]. lia.
  - exists triples. split; [exact Ht|]. simpl in Hl. destruct Hl as (-> & _). reflexivity.
Defined.

(** C1 as written fails at the limit 0: the store's three triples are all
    emitted, not [min 0 3 = 0] of them. *)
Lemma truncation_limit_zero_counterexample :
  0 <= 0 /\ ~ truncation_as_specified Sample.kg_graph 0.
Proof.
  split; [lia|]. intros (triples & Ht & Hlen & _).
  vm_compute in Ht. injection Ht as <-. vm_compute in Hlen. discriminate.
Qed.

(** ** [graph_to_json]: classification of objects *)

Lemma object_type_of_entry s p o :
  field "object_type" (triple_entry (s, p, o))
  = Some (VStr (if hasattr_datatype o then "literal" else "uri")).
Proof. reflexivity. Qed.

Lemma carries_tag_hasattr o : carries_tag o = true -> hasattr_datatype o = true.
Proof. destruct o; simpl; done. Qed.

(** C5, as the code has it.  Every entry of [triples] comes from a triple
    of the store, and its [object_type] is "literal" exactly when the
    object is a literal term (the class that has the attribute [datatype],
    set or not), "uri" otherwise.  A datatype or language tag that is set
    implies "literal"; the converse does not hold. *)
Theorem object_type_classification (g : Graph) (limit : option Z)
    (triples : list pyval) (entry : pyval) :
  field "triples" (graph_to_json g limit) = Some (VList triples) ->
  entry ∈ triples ->
  exists s p o,
    (s, p, o) ∈ g_triples g /\
    entry = triple_entry (s, p, o) /\
    (field "object_type" entry = Some (VStr "literal") <->
       exists lexical datatype language, o = Literal lexical datatype language) /\
    (field "object_type" entry = Some (VStr "uri") <->
       ~ exists lexical datatype language, o = Literal lexical datatype language) /\
    (carries_tag o = true -> field "object_type" entry = Some (VStr "literal")).
Proof.
  rewrite graph_to_json_triples. intros [= <-] Hin.
  apply list_elem_of_fmap in Hin as ([[s p] o] & -> & Hin).
  exists s, p, o. split.
  - destruct limit as [n|]; [|done].
    destruct (n =? 0); [done|].
    apply elem_of_take in Hin as (i & Hi & _). by eapply list_elem_of_lookup_2.
  - split; [done|]. rewrite object_type_of_entry.
    destruct o; simpl; repeat split; try done; try (intros [=]); eauto;
      try (intros (? & ? & ? & [=])); try (intros Hno; exfalso; apply Hno; eauto).
Qed.

Lemma object_type_classification_witness :
  exists s p o,
    (s, p, o) ∈ g_triples Sample.kg_graph /\
    triple_entry Sample.bob_age = triple_entry (s, p, o) /\
    (field "object_type" (triple_entry Sample.bob_age) = Some (VStr "literal") <->
       exists lexical datatype language, o = Literal lexical datatype language) /\
    (field "object_type" (triple_entry Sample.bob_age) = Some (VStr "uri") <->
       ~ exists lexical datatype language, o = Literal lexical datatype language) /\
    (carries_tag o = true ->
     field "object_type" (triple_entry Sample.bob_age) = Some (VStr "literal")).
Proof.
  apply (object_type_classification Sample.kg_graph None
           (map triple_entry (g_triples Sample.kg_graph))).
  - reflexivity.
  - simpl. set_solver.
Defined.

(** C5 as written fails on a plain literal: "Alice" has neither a datatype
    nor a language tag and is classified "literal". *)
Lemma plain_literal_counterexample :
  Sample.alice_name ∈ g_triples Sample.kg_graph /\
  ~ object_type_as_specified Sample.alice_name.
Proof.
  split; [set_solver|]. intros [Hif _]. specialize (Hif eq_refl). discriminate.
Qed.

End GraphToJson.

(** ** [dataframe_to_json] *)

Section DataframeToJson.

(** A table without rows is empty, whatever its columns. *)
Lemma zero_rows_empty (d : DataFrame) : df_rows d = [] -> empty d = true.
Proof. unfold empty. by intros ->. Qed.

Lemma record_keys (columns : list string) (row : list pyval) :
  length row = length columns ->
  forall k, k ∈ dict_keys (dict_of_pairs (zip columns row)) <-> k ∈ columns.
Proof.
  intros Hlen k. rewrite dict_keys_of_pairs.
  replace (map fst (zip columns row)) with columns; [done|].
  symmetry. apply fst_zip. lia.
Qed.

Lemma pairs_lookup (columns : list string) (values : list pyval) k v :
  dict_get k (dict_of_pairs (zip columns values)) = Some v ->
  exists i, columns !! i = Some k /\ values !! i = Some v.
Proof.
  rewrite dict_get_of_pairs. intros H. apply dict_get_Some_elem in H.
  apply list_elem_of_In, in_rev, list_elem_of_In, list_elem_of_lookup in H as [i Hi].
  apply lookup_zip_with_Some in Hi as (x & y & [= <- <-] & Hx & Hy). eauto.
Qed.

(** C9.  An absent or empty table translates to empty columns, empty data
    and the shape [0, 0].  A non-empty table translates to its column
    labels, one dictionary per row whose keys are exactly the columns, the
    shape [len(data), len(columns)], and a [dtypes] dictionary whose keys
    are exactly the columns, each mapped to the text of the dtype of a
    column of that name. *)
Theorem dataframe_to_json_contract (df : option DataFrame) :
  ((df = None \/ exists d, df = Some d /\ empty d = true) ->
   dataframe_to_json df = empty_table_json) /\
  (forall d, df = Some d -> empty d = false -> well_formed d ->
   exists columns data dtypes,
     dataframe_to_json df
     = VDict [ ("columns", VList columns); ("data", VList data);
               ("shape", VList [VInt (Z.of_nat (length data));
                                VInt (Z.of_nat (length columns))]);
               ("dtypes", VDict dtypes) ] /\
     columns = map VStr (df_columns d) /\
     length data = length (df_rows d) /\
     Forall (fun record => exists items,
               record = VDict items /\ NoDup (dict_keys items) /\
               forall k, k ∈ dict_keys items <-> k ∈ df_columns d) data /\
     NoDup (dict_keys dtypes) /\
     (forall k, k ∈ dict_keys dtypes <-> k ∈ df_columns d) /\
     (forall k v, dict_get k dtypes = Some v ->
        exists i t, df_columns d !! i = Some k /\ df_dtypes d !! i = Some t /\
                    v = VStr (dtype_str t))).
Proof.
  split.
  - intros [-> | (d & -> & Hempty)]; simpl; [done | by rewrite Hempty].
  - intros d -> Hne [Hdt Hrows]. simpl. rewrite Hne.
    exists (map VStr (df_columns d)), (to_dict_records d), (dtypes_to_dict d).
    unfold shape, to_dict_records. simpl. rewrite !length_map.
    repeat split; try done.
    + apply Forall_fmap. eapply Forall_impl; [exact Hrows|].
      intros row Hlen. simpl. eexists. split; [done|].
      split; [apply dict_keys_of_pairs_NoDup | by apply record_keys].
    + apply dict_keys_of_pairs_NoDup.
    + unfold dtypes_to_dict in *. apply record_keys. by rewrite length_map.
    + unfold dtypes_to_dict in *. apply record_keys. by rewrite length_map.
    + intros k v Hget. apply pairs_lookup in Hget as (i & Hk & Hv).
      apply list_lookup_fmap_Some in Hv as (t & -> & Ht). eauto.
Qed.

Lemma dataframe_to_json_contract_witness :
  field "shape" (dataframe_to_json (Some Sample.predictions))
  = Some (VList [VInt 2; VInt 4]).
Proof.
  destruct (dataframe_to_json_contract (Some Sample.predictions)) as [_ Hfull].
  destruct (Hfull Sample.predictions eq_refl eq_refl) as
    (columns & data & dtypes & -> & -> & Hlen & _).
  - split; [reflexivity|]. repeat constructor.
  - simpl. rewrite Hlen. reflexivity.
Defined.

End DataframeToJson.

(** ** New triples from the prediction table *)

Section NewTriples.

Lemma row_getitem_absent (columns : list string) (row : list pyval) label :
  label ∉ columns ->
  filter (fun kv : string * pyval => String.eqb label (fst kv) = true) (zip columns row) = [].
Proof.
  revert row. induction columns as [|c cs IH]; intros row Hnotin; [done|].
  destruct row as [|r rs]; [done|]. simpl.
  apply not_elem_of_cons in Hnotin as [Hne Hnotin].
  rewrite filter_cons_False; [by apply IH|].
  simpl. destruct (String.eqb_spec label c); congruence.
Qed.

(** A label that names exactly one column selects that column's cell. *)
Lemma row_getitem_unique (columns : list string) (row : list pyval) label :
  NoDup columns -> label ∈ columns -> length row = length columns ->
  exists c, cell columns row label = Some c /\ row_getitem columns row label = inr c.
Proof.
  unfold cell, row_getitem. revert row.
  induction columns as [|c0 cs IH]; intros row Hnd Hin Hlen; [by inversion Hin|].
  destruct row as [|r rs]; [done|]. simpl in *.
  inversion Hnd as [|? ? Hnotin Hnd']; subst.
  destruct (String.eqb_spec label c0) as [->|Hne].
  - exists r. split; [done|].
    rewrite filter_cons_True by (simpl; apply String.eqb_refl).
    by rewrite row_getitem_absent.
  - rewrite filter_cons_False by (simpl; destruct (String.eqb_spec label c0); congruence).
    apply IH; [done| |lia]. by apply elem_of_cons in Hin as [?|?].
Qed.

(** The first pair a label selects is the pair [dict_get] finds. *)
Lemma filter_label_head (l : list (string * pyval)) label k c rest :
  filter (fun kv : string * pyval => String.eqb label (fst kv) = true) l = (k, c) :: rest ->
  dict_get label l = Some c.
Proof.
  induction l as [|[k0 c0] l IH]; [done|]. simpl.
  destruct (String.eqb label k0) eqn:Hk.
  - rewrite filter_cons_True by done. by intros [= _ -> _].
  - rewrite filter_cons_False by (simpl; congruence). exact IH.
Qed.

(** What [row[label]] gives when it does not raise: the cell in the column
    of that name, or a Series when several columns have the name. *)
Lemma row_getitem_inr (columns : list string) (row : list pyval) label x :
  row_getitem columns row label = inr x ->
  x = VObject "Series" \/ cell columns row label = Some x.
Proof.
  unfold row_getitem, cell.
  destruct (filter _ (zip columns row)) as [|[k c] [|kv rest]] eqn:Hf; [done| |].
  - intros [= <-]. right. by eapply filter_label_head.
  - intros [= <-]. by left.
Qed.

(** [row[label]] does not raise when a column has the name. *)
Lemma row_getitem_present (columns : list string) (row : list pyval) label :
  label ∈ columns -> length row = length columns ->
  exists x, row_getitem columns row label = inr x.
Proof.
  intros Hin Hlen. unfold row_getitem.
  destruct (filter _ (zip columns row)) as [|[k c] [|kv rest]] eqn:Hf; [|by eexists..].
  exfalso. apply list_elem_of_lookup in Hin as [i Hi].
  destruct (lookup_lt_is_Some_2 row i) as [x Hx].
  { rewrite Hlen. by eapply lookup_lt_Some. }
  assert (Hin' : (label, x) ∈ filter (fun kv : string * pyval =>
                                        String.eqb label (fst kv) = true) (zip columns row)).
  { apply list_elem_of_filter. split; [simpl; apply String.eqb_refl|].
    apply (list_elem_of_lookup_2 _ i). apply lookup_zip_with_Some. eauto. }
  rewrite Hf in Hin'. by apply elem_of_nil in Hin'.
Qed.

(** A cell of a row that [iterrows] yields is the stored cell as
    [df_item] presents it. *)
Lemma cell_iterrows (columns : list string) (item : pyval -> pyval) (row : list pyval)
    label x :
  cell columns (map item row) label = Some x ->
  exists c, cell columns row label = Some c /\ x = item c.
Proof.
  unfold cell. revert row. induction columns as [|c0 cs IH]; intros row; [done|].
  destruct row as [|r rs]; [done|]. simpl.
  destruct (String.eqb label c0); [intros [= <-]; eauto | apply IH].
Qed.

(** The loop on rows that have the three labels: it does not raise, and
    appends one dictionary per row, in row order, made of what
    [row['subject']], [row['predicate']] and [row['object']] give. *)
Lemma iterrows_loop_collects (columns : list string) (rows : list (list pyval))
    (new_triples : list pyval) :
  "subject" ∈ columns -> "predicate" ∈ columns -> "object" ∈ columns ->
  Forall (fun row => length row = length columns) rows ->
  exists entries,
    iterrows_loop columns rows new_triples = inr (new_triples ++ entries) /\
    Forall2 (fun row entry => exists s p o,
               row_getitem columns row "subject" = inr s /\
               row_getitem columns row "predicate" = inr p /\
               row_getitem columns row "object" = inr o /\
               entry = VDict [("subject", s); ("predicate", p); ("object", o)])
            rows entries.
Proof.
  intros Hs Hp Ho. revert new_triples.
  induction rows as [|row rows IH]; intros new_triples Hrows.
  - exists []. by rewrite app_nil_r.
  - inversion Hrows as [|? ? Hlen Hrows']; subst. simpl.
    destruct (row_getitem_present columns row "subject" Hs Hlen) as (s & Hgs).
    destruct (row_getitem_present columns row "predicate" Hp Hlen) as (p & Hgp).
    destruct (row_getitem_present columns row "object" Ho Hlen) as (o & Hgo).
    rewrite Hgs, Hgp, Hgo.
    destruct (IH (new_triples ++ [VDict [("subject", s); ("predicate", p); ("object", o)]])
                Hrows') as (entries & -> & Hall).
    eexists (_ :: entries). split; [by rewrite <- app_assoc|].
    constructor; [|done]. exists s, p, o. done.
Qed.

Lemma iterrows_well_formed (d : DataFrame) :
  well_formed d ->
  Forall (fun row => length row = length (df_columns d)) (iterrows d).
Proof.
  intros [_ Hrows]. unfold iterrows. apply Forall_fmap.
  eapply Forall_impl; [exact Hrows|]. intros row Hlen. simpl. by rewrite length_map.
Qed.

(** Lines 161-168 on a table with the three columns: the loop does not
    raise and appends one dictionary per row.  When the encoder accepts
    these dictionaries, each holds that row's subject, predicate and object
    cells; a Series, which a label naming several columns would select, is
    not accepted. *)
Lemma collect_new_triples_rows (d : DataFrame) :
  well_formed d -> has_spo_columns d ->
  exists new_triples,
    collect_new_triples (Some d) = inr new_triples /\
    length new_triples = length (df_rows d) /\
    (Forall serializable new_triples ->
     Forall2 (triple_of_row d) (df_rows d) new_triples).
Proof.
  intros Hwf (Hs & Hp & Ho). unfold collect_new_triples, empty.
  destruct (df_rows d) as [|row rows] eqn:Hr; simpl.
  { exists []. split; [done|]. split; [done | constructor]. }
  destruct (df_columns d) as [|c cs] eqn:Hc; [by inversion Hs|]. simpl.
  rewrite <- Hc in *.
  destruct (iterrows_loop_collects (df_columns d) (iterrows d) [] Hs Hp Ho
              (iterrows_well_formed d Hwf)) as (entries & Heq & Hall).
  exists entries. split; [exact Heq|].
  unfold iterrows in Hall. rewrite Hr in Hall.
  split.
  { apply Forall2_length in Hall. by rewrite length_map in Hall. }
  intros Hser. revert Hall Hser. generalize (row :: rows) entries. clear.
  induction l as [|r l IH]; intros entries Hall Hser.
  { inversion Hall; subst. constructor. }
  simpl in Hall. inversion Hall as [|? entry ? rest Hrow Hrest]; subst.
  inversion Hser as [|? ? Hentry Hser']; subst.
  constructor; [|by apply IH].
  destruct Hrow as (s & p & o & Hgs & Hgp & Hgo & ->).
  apply serializable_dict_inv in Hentry.
  inversion Hentry as [|? ? Hs1 Hentry1]; subst.
  inversion Hentry1 as [|? ? Hp1 Hentry2]; subst.
  inversion Hentry2 as [|? ? Ho1 _]; subst. simpl in *.
  assert (Hcell : forall label x,
            row_getitem (df_columns d) (map (df_item d) r) label = inr x ->
            serializable x ->
            exists c, cell (df_columns d) r label = Some c /\ x = df_item d c).
  { intros label x Hget Hx. apply row_getitem_inr in Hget as [-> | Hcell].
    - by destruct (unserializable_object "Series").
    - by apply cell_iterrows. }
  destruct (Hcell _ _ Hgs Hs1) as (cs & Hcs & ->).
  destruct (Hcell _ _ Hgp Hp1) as (cp & Hcp & ->).
  destruct (Hcell _ _ Hgo Ho1) as (co & Hco & ->).
  by exists cs, cp, co.
Qed.

End NewTriples.

(** ** Steps that print nothing and touch no file *)

Section QuietSteps.

Variable E : Env.

Lemma quiet_refl w : quiet w w.
Proof. by repeat split. Qed.

Lemma quiet_trans w1 w2 w3 : quiet w1 w2 -> quiet w2 w3 -> quiet w1 w3.
Proof.
  intros (? & ? & ? & ? & Hr1) (? & ? & ? & ? & Hr2).
  repeat split; try congruence; intros path; by rewrite Hr2.
Qed.

Lemma removals_emit path ev evs :
  removals path (evs ++ [ev]) = (removals path evs + if is_removal path ev then 1 else 0)%nat.
Proof.
  unfold removals. rewrite filter_app, length_app. f_equal.
  destruct (is_removal path ev) eqn:H.
  - by rewrite filter_cons_True.
  - rewrite filter_cons_False; [done | congruence].
Qed.

Lemma quiet_emit ev w : (forall path, is_removal path ev = false) -> quiet w (emit ev w).
Proof.
  intros Hev. repeat split. intros path. simpl.
  rewrite removals_emit, Hev. lia.
Qed.

Lemma Quiet_ret {A} (a : A) : Quiet (mret a).
Proof. intros w. apply quiet_refl. Qed.

Lemma Quiet_raise {A} (e : exn) : Quiet (@raise A e).
Proof. intros w. apply quiet_refl. Qed.

Lemma Quiet_sys_exit {A} (n : Z) : Quiet (@sys_exit A n).
Proof. intros w. apply quiet_refl. Qed.

Lemma Quiet_bind {A B} (m : M A) (f : A -> M B) :
  Quiet m -> (forall a, Quiet (f a)) -> Quiet (m ≫= f).
Proof.
  intros Hm Hf w. unfold mbind, M_bind.
  pose proof (Hm w) as Hq. destruct (m w) as [[a|e|n] w1]; simpl in *; [|done..].
  eapply quiet_trans; [exact Hq | apply Hf].
Qed.

Lemma Quiet_lift {A} (r : exn + A) : Quiet (lift r).
Proof. destruct r; [apply Quiet_raise | apply Quiet_ret]. Qed.

Lemma Quiet_get {A} (proj : world -> A) : Quiet (get proj).
Proof. intros w. apply quiet_refl. Qed.

Lemma Quiet_modify (f : world -> world) : (forall w, quiet w (f w)) -> Quiet (modify f).
Proof. intros Hf w. apply Hf. Qed.

Lemma Quiet_time_time : Quiet (time_time E).
Proof. intros w. by repeat split. Qed.

Lemma Quiet_datetime_now_isoformat : Quiet (datetime_now_isoformat E).
Proof. intros w. by repeat split. Qed.

Lemma Quiet_subscript v k : Quiet (subscript v k).
Proof. unfold subscript. destruct (field k v); [apply Quiet_ret | apply Quiet_raise]. Qed.

Lemma Quiet_original_query g q : Quiet (original_query E g q).
Proof.
  intros w. unfold original_query.
  destruct (w_graphs w !! g) as [o|]; [|apply quiet_refl].
  destruct (sparql E (go_graph o) q) as [[e|rows] G']; by repeat split.
Qed.

Lemma Quiet_list_of_results results : Quiet (list_of_results results).
Proof.
  intros w. unfold list_of_results.
  destruct (w_results w !! results); by repeat split.
Qed.

Lemma Quiet_queries_append record : Quiet (queries_append record).
Proof. apply Quiet_modify. intros w. by repeat split. Qed.

Create HintDb quiet.
#[local] Hint Resolve Quiet_ret Quiet_raise Quiet_lift Quiet_get Quiet_time_time
  Quiet_datetime_now_isoformat Quiet_subscript Quiet_original_query
  Quiet_list_of_results Quiet_queries_append : quiet.

Ltac quiet_steps :=
  repeat first [ apply Quiet_bind; [|intros ?] | solve [eauto with quiet] ].

Lemma Quiet_capturing_query g q : Quiet (capturing_query E g q).
Proof. unfold capturing_query. quiet_steps. Qed.

Lemma Quiet_original_load_graph file : Quiet (original_load_graph E file).
Proof.
  intros w. unfold original_load_graph.
  destruct (load_graph E file); simpl;
    repeat split; simpl; intros; rewrite removals_emit; simpl; lia.
Qed.

Lemma Quiet_patched_load_graph file : Quiet (patched_load_graph E file).
Proof.
  unfold patched_load_graph. apply Quiet_bind; [apply Quiet_original_load_graph|].
  intros g. apply Quiet_bind; [|intros ?; apply Quiet_ret].
  apply Quiet_modify. intros w. by repeat split.
Qed.

Lemma Quiet_call_load_graph file : Quiet (call_load_graph E file).
Proof.
  intros w. unfold call_load_graph. destruct (w_patched w).
  - apply Quiet_patched_load_graph.
  - apply Quiet_original_load_graph.
Qed.

Lemma Quiet_call_query g q : Quiet (call_query E g q).
Proof.
  intros w. unfold call_query.
  destruct (w_graphs w !! g) as [o|]; [destruct (go_capturing o)|].
  - apply Quiet_capturing_query.
  - apply Quiet_original_query.
  - apply Quiet_original_query.
Qed.

(** The engine, run through the interceptor, prints nothing and touches no
    file of the adapter, however it ends. *)
Lemma Quiet_run_engine {R} (p : engine_prog R) : Quiet (run_engine E p).
Proof.
  induction p as [r|e|n|file k IH|g q k IH]; simpl.
  - apply Quiet_ret.
  - apply Quiet_raise.
  - apply Quiet_sys_exit.
  - intros w. pose proof (Quiet_call_load_graph file w) as Hq.
    destruct (call_load_graph E file w) as [[g|e|n] w1]; simpl in *; [| |done].
    + eapply quiet_trans; [exact Hq | apply IH].
    + eapply quiet_trans; [exact Hq | apply IH].
  - intros w.
    assert (Hstep : Quiet (results ← call_query E g q; list_of_results results)).
    { apply Quiet_bind; [apply Quiet_call_query | intros; apply Quiet_list_of_results]. }
    set (w0 := emit (EvQuery g q (yields_now E g q w)) w).
    assert (Hw0 : quiet w w0) by (by apply quiet_emit).
    pose proof (Hstep w0) as Hq.
    destruct ((results ← call_query E g q; list_of_results results) w0)
      as [[rows|e|n] w1]; simpl in *.
    + eapply quiet_trans; [|apply IH]. eapply quiet_trans; eauto.
    + eapply quiet_trans; [|apply IH]. eapply quiet_trans; eauto.
    + eapply quiet_trans; eauto.
Qed.

Lemma Quiet_engine_steps path : Quiet (engine_steps E path).
Proof.
  unfold engine_steps.
  apply Quiet_bind; [apply Quiet_modify; intros; by apply quiet_emit | intros _].
  apply Quiet_bind; [intros w; apply Quiet_lift | intros ctx].
  apply Quiet_bind; [apply Quiet_modify; intros; by apply quiet_emit | intros _].
  apply Quiet_bind; [intros w; apply Quiet_lift | intros initial_graph].
  apply Quiet_bind; [apply Quiet_modify; intros; by apply quiet_emit | intros _].
  apply Quiet_bind; [apply Quiet_run_engine | intros [result_df enriched_kg]].
  apply Quiet_ret.
Qed.

Lemma Quiet_assemble_output start ctx pj ij ej nt :
  Quiet (assemble_output E start ctx pj ij ej nt).
Proof. unfold assemble_output. quiet_steps. Qed.

Lemma Quiet_translate start r : Quiet (translate E start r).
Proof.
  destruct r as [[[ctx ij] df] kg]. unfold translate.
  apply Quiet_bind; [apply Quiet_lift | intros; apply Quiet_assemble_output].
Qed.

Lemma Quiet_build_output path : Quiet (build_output E path).
Proof.
  unfold build_output.
  apply Quiet_bind; [apply Quiet_time_time | intros start].
  apply Quiet_bind; [apply Quiet_engine_steps | intros r; apply Quiet_translate].
Qed.

End QuietSteps.

(** ** The [try] statement *)

Section Runs.

Variable E : Env.

Lemma json_dumps_error_output e w :
  json_dumps (error_output e (isoformat (clock E (w_reads w)))) = inr (failure_text E e w).
Proof. reflexivity. Qed.

Lemma error_output_failure_envelope e timestamp : failure_envelope (error_output e timestamp).
Proof. unfold failure_envelope, error_output. do 4 eexists. eauto. Qed.

Lemma except_handler_spec e w :
  except_handler E e w = (Exiting 1, printed (failure_text E e w) (set_reads S w)).
Proof. reflexivity. Qed.

Lemma finally_block_present path w :
  is_Some (w_fs w !! path) -> finally_block path w = (Returned tt, cleaned path w).
Proof.
  intros H. unfold finally_block, os_path_exists, get, mbind, M_bind.
  by rewrite bool_decide_eq_true_2.
Qed.

(** The [try] statement on a staged file.  Its body prints nothing until
    [output] is built; then either the whole document is printed and the
    statement ends normally, or the handler prints the failure document and
    exits with status 1.  When the engine ends the process itself, the
    handler does not run and nothing is printed.  In every case the
    [finally] block removes the file. *)
Lemma guarded_run_spec path w :
  is_Some (w_fs w !! path) ->
  exists o w1,
    build_output E path w = (o, w1) /\ quiet w w1 /\
    ((exists output text,
        o = Returned output /\ json_dumps output = inr text /\
        guarded_run E path w = (Returned tt, cleaned path (printed text w1)))
     \/
     (exists e,
        (o = Raised e \/ exists output, o = Returned output /\ json_dumps output = inl e) /\
        guarded_run E path w
        = (Exiting 1, cleaned path (printed (failure_text E e w1) (set_reads S w1))))
     \/
     (exists n, o = Exiting n /\ guarded_run E path w = (Exiting n, cleaned path w1))).
Proof.
  intros Hfile. pose proof (Quiet_build_output E path w) as Hq.
  destruct (build_output E path w) as [o w1] eqn:Hb. simpl in *.
  exists o, w1. split; [done|]. split; [done|].
  assert (Hfs : w_fs w1 !! path = w_fs w !! path).
  { destruct Hq as (_ & _ & -> & _). done. }
  assert (Hfile1 : forall f g, is_Some (w_fs (set_stdout f (set_reads g w1)) !! path)).
  { intros f g. simpl. by rewrite Hfs. }
  unfold guarded_run, try_finally, try_except, try_body, mbind, M_bind. rewrite Hb.
  destruct o as [output|e|n]; [|right; left|right; right].
  - destruct (json_dumps output) as [e|text] eqn:Hd; cbn -[except_handler finally_block].
    + right. left. exists e. split; [eauto|].
      rewrite except_handler_spec, finally_block_present; [done|].
      apply (Hfile1 _ S).
    + left. exists output, text. split; [done|]. split; [done|].
      unfold print, modify. rewrite finally_block_present; [done|].
      apply (Hfile1 _ id).
  - exists e. split; [eauto|].
    rewrite except_handler_spec, finally_block_present; [done|].
    apply (Hfile1 _ S).
  - exists n. split; [done|].
    rewrite finally_block_present; [done|]. by rewrite Hfs.
Qed.

Lemma temp_name_fresh w : w_fs w !! temp_name w = None.
Proof. apply not_elem_of_dom. unfold temp_name. apply is_fresh. Qed.

Lemma staged_file w config : w_fs (staged w config) !! temp_name w = Some config.
Proof. unfold staged. simpl. by rewrite lookup_insert_eq. Qed.

(** A request that does not parse: the exception leaves [main] from
    line 130, before the [try] statement is entered. *)
Lemma main_malformed w e :
  json_load E (w_stdin w) = inl e ->
  main E w = (Raised e, set_patched true (set_queries (fun _ => []) w)).
Proof.
  intros H. unfold main, mbind, M_bind, capture_sparql_queries, modify, json_load_stdin.
  simpl. by rewrite H.
Qed.

(** A request that parses reaches the [try] statement with its file
    staged. *)
Lemma main_staged w v config :
  json_load E (w_stdin w) = inr v -> json_dumps v = inr config ->
  main E w = guarded_run E (temp_name w) (staged w config).
Proof.
  intros Hl Hd. unfold main, mbind, M_bind, capture_sparql_queries, modify,
    json_load_stdin, stage_config.
  simpl. rewrite Hl. simpl. by rewrite Hd.
Qed.

End Runs.

(** ** What a printed success document holds *)

Section Assembly.

Variable E : Env.

Lemma translate_inv start ctx ij df kg w output w1 :
  translate E start (ctx, ij, df, kg) w = (Returned output, w1) ->
  exists new_triples summary,
    collect_new_triples df = inr new_triples /\
    success_envelope output /\
    field "new_triples" output = Some (VList new_triples) /\
    field "sparql_queries" output = Some (VList (w_queries w)) /\
    field "summary" output = Some summary /\
    field "total_predictions" summary = Some (VInt (Z.of_nat (length new_triples))) /\
    field "queries_executed" summary = Some (VInt (Z.of_nat (length (w_queries w)))).
Proof.
  unfold translate, assemble_output, subscript, mbind, M_bind, lift.
  destruct (collect_new_triples df) as [e|new_triples]; [done|].
  cbn -[graph_to_json dataframe_to_json field path_join dirname].
  destruct (field "total_triples" ij) as [n0|]; [|done].
  cbn -[graph_to_json dataframe_to_json field path_join dirname].
  destruct (field "total_triples" (graph_to_json kg (Some 1000))) as [n1|]; [|done].
  cbn -[graph_to_json dataframe_to_json field path_join dirname].
  intros [= <- <-]. do 2 eexists. split; [done|].
  split; [eexists; split; [done|]; by split|].
  repeat split; reflexivity.
Qed.

Lemma build_output_inv path w output w1 :
  build_output E path w = (Returned output, w1) ->
  exists start ctx ij df kg w',
    engine_steps E path (set_reads S w) = (Returned (ctx, ij, df, kg), w') /\
    translate E start (ctx, ij, df, kg) w' = (Returned output, w1).
Proof.
  unfold build_output, mbind at 1, M_bind at 1, time_time.
  unfold mbind at 1, M_bind at 1.
  destruct (engine_steps E path (set_reads S w)) as [[[[[ctx ij] df] kg]|e|n] w'];
    [|done..].
  intros H. by exists (clock E (w_reads w)), ctx, ij, df, kg, w'.
Qed.

(** Lines 138-152 when they run to their end: what each step gave. *)
Lemma engine_steps_returned path w ctx ij df kg w' :
  engine_steps E path w = (Returned (ctx, ij, df, kg), w') ->
  exists G0,
    initialize E (w_fs w) path = inr ctx /\
    nt_parse E (w_fs w) (ctx_rdf_data ctx) = inr G0 /\
    ij = graph_to_json G0 (Some 100) /\
    run_engine E (process_rules_call E ctx) (at_process_rules path ctx w)
      = (Returned (df, kg), w').
Proof.
  unfold engine_steps, mbind, M_bind, modify, lift, process_rules_call, at_process_rules.
  simpl.
  destruct (initialize E (w_fs w) path) as [e|ctx']; [done|]. simpl.
  destruct (nt_parse E (w_fs w) (ctx_rdf_data ctx')) as [e|G0] eqn:Hparse; [done|]. simpl.
  match goal with
  | |- context [run_engine E ?p ?w2] =>
      destruct (run_engine E p w2) as [[[df' kg']|e|n] w3] eqn:Hrun; [|done..]
  end.
  simpl. intros [= <- <- <- <- <-]. exists G0. by rewrite Hrun.
Qed.

Lemma serializable_field (d : dict) k v :
  serializable (VDict d) -> dict_get k d = Some v -> serializable v.
Proof.
  intros Hd Hk. apply serializable_dict_inv in Hd.
  apply (proj1 (Forall_forall _ _) Hd (k, v)). by apply dict_get_Some_elem.
Qed.

(** Once the request is parsed and staged, exactly one document is printed,
    the success document with status 0 or the failure document with
    status 1, unless the engine ends the process itself: then nothing is
    printed and the status is the engine's. *)
Lemma staged_run_one_envelope stdin fs v config :
  json_load E stdin = inr v -> json_dumps v = inr config ->
  (exists text doc,
     w_stdout (run_world E (initial_world stdin fs)) = [text] /\
     json_dumps doc = inr text /\
     ((fst (main E (initial_world stdin fs)) = Returned tt /\ success_envelope doc) \/
      (fst (main E (initial_world stdin fs)) = Exiting 1 /\ failure_envelope doc))) \/
  (exists n,
     fst (build_output E (temp_name (initial_world stdin fs))
            (staged (initial_world stdin fs) config)) = Exiting n /\
     fst (main E (initial_world stdin fs)) = Exiting n /\
     w_stdout (run_world E (initial_world stdin fs)) = []).
Proof.
  intros Hl Hd. set (w := initial_world stdin fs).
  unfold run_world. rewrite (main_staged E w v config Hl Hd).
  destruct (guarded_run_spec E (temp_name w) (staged w config)) as
    (o & w1 & Hb & Hq & Hcases); [by rewrite staged_file|].
  destruct Hq as (_ & Hout & _).
  destruct Hcases as [(output & text & -> & Hdump & ->) | [(e & _ & ->) | (n & -> & ->)]];
    simpl.
  - left. exists text, output. rewrite Hout. simpl. split; [done|]. split; [done|]. left.
    split; [done|].
    apply build_output_inv in Hb as (start & ctx & ij & df & kg & w' & _ & Ht).
    apply translate_inv in Ht as (? & ? & _ & Hs & _). exact Hs.
  - left. exists (failure_text E e w1), (error_output e (isoformat (clock E (w_reads w1)))).
    rewrite Hout. simpl. split; [done|]. split; [apply json_dumps_error_output|].
    right. split; [done | apply error_output_failure_envelope].
  - right. exists n. rewrite Hb, Hout. done.
Qed.

End Assembly.

(** ** Runs of [main] *)

Section MainRuns.

Variable E : Env.

(** C3 on the code: a request that does not parse.  [json.load] raises at
    line 130, outside the [try] statement, so the exception is never
    caught: nothing is printed (no failure document), the status is 1, and
    nothing at all was called, the engine included. *)
Theorem malformed_request_uncaught (stdin : string) (fs : gmap string string) (e : exn) :
  json_load E stdin = inl e ->
  fst (main E (initial_world stdin fs)) = Raised e /\
  run_status E (initial_world stdin fs) = 1 /\
  w_stdout (run_world E (initial_world stdin fs)) = [] /\
  w_events (run_world E (initial_world stdin fs)) = [] /\
  filter (fun ev => is_engine_call ev = true)
         (w_events (run_world E (initial_world stdin fs))) = [].
Proof.
  intros H. unfold run_status, run_world.
  rewrite (main_malformed E (initial_world stdin fs) e H). done.
Qed.

(** C4.  Once the configuration is staged, however the run goes on, the
    staged file (which did not exist before) is removed by exactly one call
    of [os.remove] and is absent when the process exits; the other files
    are as they were. *)
Theorem staged_file_removed_once (stdin : string) (fs : gmap string string)
    (v : pyval) (config : string) :
  json_load E stdin = inr v -> json_dumps v = inr config ->
  fs !! temp_name (initial_world stdin fs) = None /\
  w_fs (staged (initial_world stdin fs) config) !! temp_name (initial_world stdin fs)
    = Some config /\
  w_fs (run_world E (initial_world stdin fs)) !! temp_name (initial_world stdin fs) = None /\
  removals (temp_name (initial_world stdin fs))
           (w_events (run_world E (initial_world stdin fs))) = 1%nat /\
  w_fs (run_world E (initial_world stdin fs)) = fs.
Proof.
  intros Hl Hd. set (w := initial_world stdin fs).
  pose proof (temp_name_fresh w) as Hfresh.
  split; [exact Hfresh|]. split; [apply staged_file|].
  unfold run_world. rewrite (main_staged E w v config Hl Hd).
  destruct (guarded_run_spec E (temp_name w) (staged w config)) as
    (o & w1 & Hb & Hq & Hcases); [by rewrite staged_file|].
  destruct Hq as (_ & _ & Hfs & _ & Hrm).
  assert (Hdel : delete (temp_name w) (w_fs w1) = fs).
  { rewrite Hfs. unfold staged. simpl.
    rewrite insert_insert_eq, delete_insert_eq. by apply delete_id. }
  assert (Hcount : (removals (temp_name w) (w_events w1 ++ [EvRemove (temp_name w)]) = 1)%nat).
  { rewrite removals_emit, Hrm. simpl. by rewrite String.eqb_refl. }
  destruct Hcases as [(output & text & -> & Hdump & ->) | [(e & _ & ->) | (n & _ & ->)]];
    simpl; rewrite Hdel; repeat split; try done; exact Hcount.
Qed.

(** C8.  When the run succeeds (main runs to its end), the one printed
    document is the encoding of an [output] built from the table
    [process_rules] returned in this run.  If that table has the subject,
    predicate and object columns, [new_triples] holds one dictionary per
    table row, in row order, each with exactly that row's subject,
    predicate and object cells as the row that [iterrows] yields presents
    them (the other columns are not read), and [summary.total_predictions]
    is the number of rows.  Labels need not be pairwise distinct: a label
    that names several columns selects a Series, which the encoder
    rejects, so such a run does not succeed. *)
Theorem new_triples_one_per_row (stdin : string) (fs : gmap string string) :
  fst (main E (initial_world stdin fs)) = Returned tt ->
  exists text output v config ctx result_df enriched_kg,
    w_stdout (run_world E (initial_world stdin fs)) = [text] /\
    json_dumps output = inr text /\
    json_load E stdin = inr v /\ json_dumps v = inr config /\
    initialize E (w_fs (staged (initial_world stdin fs) config))
      (temp_name (initial_world stdin fs)) = inr ctx /\
    fst (run_engine E (process_rules_call E ctx)
           (at_process_rules (temp_name (initial_world stdin fs)) ctx
              (set_reads S (staged (initial_world stdin fs) config))))
      = Returned (result_df, enriched_kg) /\
    forall d, result_df = Some d -> well_formed d -> has_spo_columns d ->
      exists new_triples summary,
        field "new_triples" output = Some (VList new_triples) /\
        Forall2 (triple_of_row d) (df_rows d) new_triples /\
        length new_triples = length (df_rows d) /\
        field "summary" output = Some summary /\
        field "total_predictions" summary
          = Some (VInt (Z.of_nat (length (df_rows d)))).
Proof.
  set (w := initial_world stdin fs). unfold run_world.
  destruct (json_load E stdin) as [e|v] eqn:Hl.
  { by rewrite (main_malformed E w e Hl). }
  destruct (json_dumps v) as [e|config] eqn:Hd.
  { unfold main, mbind, M_bind, capture_sparql_queries, modify, json_load_stdin,
      stage_config. simpl. rewrite Hl. simpl. by rewrite Hd. }
  rewrite (main_staged E w v config Hl Hd).
  destruct (guarded_run_spec E (temp_name w) (staged w config)) as
    (o & w1 & Hb & Hq & Hcases); [by rewrite staged_file|].
  destruct Hq as (_ & Hout & _).
  destruct Hcases as [(output & text & -> & Hdump & ->) | [(e & _ & ->) | (n & _ & ->)]];
    [|done..].
  intros _. simpl.
  apply build_output_inv in Hb as (start & ctx & ij & df & kg & w' & Hsteps & Ht).
  apply engine_steps_returned in Hsteps as (G0 & Hinit & _ & _ & Hrun).
  apply translate_inv in Ht as
    (new_triples & summary & Hnt & (items & -> & _) & Hf & _ & Hsum & Htot & _).
  exists text, (VDict items), v, config, ctx, df, kg.
  split; [by rewrite Hout|]. split; [done|]. split; [done|]. split; [done|].
  split; [exact Hinit|]. split; [by rewrite Hrun|].
  intros d -> Hwf Hspo.
  destruct (collect_new_triples_rows d Hwf Hspo) as (nt & Hnt' & Hlen & Hall).
  rewrite Hnt' in Hnt. injection Hnt as ->.
  exists new_triples, summary.
  split; [done|]. split.
  - apply Hall. apply serializable_list_inv.
    apply (serializable_field items "new_triples"); [by exists text | exact Hf].
  - split; [done|]. split; [done|]. by rewrite Htot, Hlen.
Qed.

(** C10.  When [output] is assembled but [json.dumps(output)] raises, no
    part of the success document is printed: the handler prints the one
    failure document, built from that exception, and the status is 1. *)
Theorem unserializable_output_fails_whole (stdin : string) (fs : gmap string string)
    (v : pyval) (config : string) (output : pyval) (w1 : world) (e : exn) :
  json_load E stdin = inr v -> json_dumps v = inr config ->
  build_output E (temp_name (initial_world stdin fs)) (staged (initial_world stdin fs) config)
    = (Returned output, w1) ->
  json_dumps output = inl e ->
  run_status E (initial_world stdin fs) = 1 /\
  exists text timestamp,
    w_stdout (run_world E (initial_world stdin fs)) = [text] /\
    json_dumps (error_output e timestamp) = inr text /\
    failure_envelope (error_output e timestamp).
Proof.
  intros Hl Hd Hbuild Hdump. set (w := initial_world stdin fs) in *.
  unfold run_status, run_world. rewrite (main_staged E w v config Hl Hd).
  destruct (guarded_run_spec E (temp_name w) (staged w config)) as
    (o & w1' & Hb & Hq & Hcases); [by rewrite staged_file|].
  rewrite Hbuild in Hb. injection Hb as <- <-.
  destruct Hq as (_ & Hout & _).
  destruct Hcases as
    [(output' & text & [= <-] & Hdump' & _) | [(e' & He' & ->) | (n & [=] & _)]].
  { congruence. }
  assert (e' = e) as ->.
  { destruct He' as [[=] | (output' & [= <-] & Hd')]. congruence. }
  simpl. split; [done|].
  exists (failure_text E e w1), (isoformat (clock E (w_reads w1))).
  rewrite Hout. simpl. split; [done|].
  split; [apply json_dumps_error_output | apply error_output_failure_envelope].
Qed.

End MainRuns.

(** ** The interceptor *)

Section InterceptorFacts.

Variable E : Env.

Abbreviation capturing := (fun o : graph_obj => go_capturing o = true).

Lemma original_query_at g q w o :
  w_graphs w !! g = Some o ->
  original_query E g q w
  = let w1 := set_graphs (fun gs =>
                <[g := mkGraphObj (snd (sparql E (go_graph o) q)) (go_capturing o)]> gs) w in
    match fst (sparql E (go_graph o) q) with
    | inl e => (Raised e, w1)
    | inr rows => (Returned (length (w_results w)), set_results (fun rs => rs ++ [rows]) w1)
    end.
Proof.
  intros Hg. unfold original_query. rewrite Hg.
  by destruct (sparql E (go_graph o) q) as [[e|rows] G1].
Qed.

(** What one call of [capturing_query] does, up to its second execution of
    the query: when the query raises, the exception leaves the wrapper and
    nothing is recorded; when it yields rows, the first result is read to
    its end, one record is appended to [queries], and the wrapper's result
    is that of executing the query again. *)
Lemma capturing_query_step g q w o :
  w_graphs w !! g = Some o ->
  exists w1,
    w_events w1 = w_events w /\ w_patched w1 = w_patched w /\
    w_graphs w1 = <[g := mkGraphObj (snd (sparql E (go_graph o) q)) (go_capturing o)]> (w_graphs w) /\
    match fst (sparql E (go_graph o) q) with
    | inl e =>
        capturing_query E g q w = (Raised e, w1) /\
        w_queries w1 = w_queries w /\ w_results w1 = w_results w
    | inr rows =>
        capturing_query E g q w = original_query E g q w1 /\
        w_results w1 = w_results w ++ [[]] /\
        exists elapsed timestamp,
          w_queries w1
          = w_queries w ++ [VDict [ ("query", VStr q); ("execution_time", VFloat elapsed);
                                    ("result_count", VInt (Z.of_nat (length rows)));
                                    ("timestamp", VStr timestamp) ]]
    end.
Proof.
  intros Hg. unfold capturing_query, mbind, M_bind, time_time.
  rewrite (original_query_at g q (set_reads S w) o Hg).
  destruct (sparql E (go_graph o) q) as [[e|rows] G1]; simpl.
  - eexists. split; [|split; [|split; [|split; [|split]]]].
    4: reflexivity. all: reflexivity.
  - unfold list_of_results. simpl.
    rewrite lookup_app_r by lia. rewrite Nat.sub_diag. simpl.
    eexists. split; [|split; [|split; [|split; [|split]]]].
    4: reflexivity. all: simpl; try reflexivity.
    + rewrite insert_app_r_alt by lia. by rewrite Nat.sub_diag.
    + eauto.
Qed.

(** [original_query] records nothing and keeps the wrappers in place. *)
Lemma original_query_keeps g q w :
  w_queries (snd (original_query E g q w)) = w_queries w /\
  w_events (snd (original_query E g q w)) = w_events w /\
  w_patched (snd (original_query E g q w)) = w_patched w /\
  (Forall capturing (w_graphs w) ->
   Forall capturing (w_graphs (snd (original_query E g q w)))).
Proof.
  unfold original_query. destruct (w_graphs w !! g) as [o|] eqn:Hg; [|done].
  destruct (sparql E (go_graph o) q) as [[e|rows] G1]; simpl;
    repeat split; try done; intros Hall; apply Forall_insert; try done;
    simpl; by apply (Forall_lookup_1 _ _ _ _ Hall Hg).
Qed.

Lemma list_of_results_keeps results w :
  w_queries (snd (list_of_results results w)) = w_queries w /\
  w_events (snd (list_of_results results w)) = w_events w /\
  w_patched (snd (list_of_results results w)) = w_patched w /\
  w_graphs (snd (list_of_results results w)) = w_graphs w.
Proof. unfold list_of_results. by destruct (w_results w !! results). Qed.

(** One call [g.query(q)] by the engine in an instrumented world: the log
    grows by the record of this query when the query yields rows, and is
    left as it was when the query raises. *)
Lemma query_call_logged g q w :
  instrumented w ->
  let w' := snd ((results ← call_query E g q; list_of_results results) w) in
  instrumented w' /\ w_events w' = w_events w /\
  exists records,
    w_queries w' = w_queries w ++ records /\ Forall captured_record records /\
    map record_summary records
    = map Some (executed [EvQuery g q (yields_now E g q w)]).
Proof.
  intros [Hp Hall]. unfold call_query, yields_now, mbind, M_bind.
  destruct (w_graphs w !! g) as [o|] eqn:Hg.
  - rewrite (Forall_lookup_1 _ _ _ _ Hall Hg).
    destruct (capturing_query_step g q w o Hg) as (w1 & Hev & Hpat & Hgr & Hcase).
    assert (Hall1 : Forall capturing (w_graphs w1)).
    { rewrite Hgr. apply Forall_insert; [done|]. simpl.
      by apply (Forall_lookup_1 _ _ _ _ Hall Hg). }
    destruct (fst (sparql E (go_graph o) q)) as [e|rows].
    + destruct Hcase as (-> & Hq & _). simpl.
      split; [split; congruence|]. split; [done|].
      exists []. rewrite app_nil_r. by repeat split.
    + destruct Hcase as (-> & _ & elapsed & timestamp & Hq).
      destruct (original_query_keeps g q w1) as (Hq2 & Hev2 & Hp2 & Hall2).
      destruct (original_query E g q w1) as [[results|e|n] w2]; simpl in *;
        try destruct (list_of_results_keeps results w2) as (Hq3 & Hev3 & Hp3 & Hg3);
        (split; [split; [congruence | try rewrite Hg3; auto] |]);
        (split; [congruence|]);
        eexists [_]; (split; [try rewrite Hq3; rewrite Hq2; exact Hq |]);
        (split; [repeat constructor; do 4 eexists; reflexivity | reflexivity]).
  - destruct (original_query_keeps g q w) as (Hq2 & Hev2 & Hp2 & Hall2).
    unfold original_query in *. rewrite Hg in *. simpl.
    split; [done|]. split; [done|]. exists []. rewrite app_nil_r. by repeat split.
Qed.

(** One call [load_graph(file)] by the engine in an instrumented world:
    nothing is recorded, and the graph it returns is wrapped. *)
Lemma load_graph_call_logged file w :
  instrumented w ->
  let w' := snd (call_load_graph E file w) in
  instrumented w' /\ w_queries w' = w_queries w /\
  w_events w' = w_events w ++ [EvLoadGraph file].
Proof.
  intros [Hp Hall]. unfold call_load_graph. rewrite Hp.
  unfold patched_load_graph, original_load_graph, mbind, M_bind, modify.
  destruct (load_graph E file) as [e|G]; simpl; [done|].
  split; [|done]. split; [done|]. simpl.
  rewrite lookup_app_r by lia. rewrite Nat.sub_diag. simpl.
  rewrite insert_app_r_alt by lia. rewrite Nat.sub_diag. simpl.
  apply Forall_app. split; [done | by repeat constructor].
Qed.

Lemma executed_app evs1 evs2 : executed (evs1 ++ evs2) = executed evs1 ++ executed evs2.
Proof. apply omap_app. Qed.

(** The log after an engine routine: what was there before, then one
    record per query executed to a result, in call order. *)
Lemma run_engine_logged {R} (p : engine_prog R) (w : world) :
  instrumented w ->
  instrumented (snd (run_engine E p w)) /\
  exists records events,
    w_queries (snd (run_engine E p w)) = w_queries w ++ records /\
    w_events (snd (run_engine E p w)) = w_events w ++ events /\
    Forall captured_record records /\
    map record_summary records = map Some (executed events).
Proof.
  revert w. induction p as [r|e|n|file k IH|g q k IH]; intros w Hw; simpl.
  - split; [done|]. exists [], []. rewrite !app_nil_r. by repeat split.
  - split; [done|]. exists [], []. rewrite !app_nil_r. by repeat split.
  - split; [done|]. exists [], []. rewrite !app_nil_r. by repeat split.
  - destruct (load_graph_call_logged file w Hw) as (Hw1 & Hq1 & Hev1).
    assert (Hgo : forall r w1, instrumented w1 -> w_queries w1 = w_queries w ->
              w_events w1 = w_events w ++ [EvLoadGraph file] ->
              instrumented (snd (run_engine E (k r) w1)) /\
              exists records events,
                w_queries (snd (run_engine E (k r) w1)) = w_queries w ++ records /\
                w_events (snd (run_engine E (k r) w1)) = w_events w ++ events /\
                Forall captured_record records /\
                map record_summary records = map Some (executed events)).
    { intros r w1 Hi Hq Hev.
      destruct (IH r w1 Hi) as (Hi' & records & events & Hq' & Hev' & Hrec & Hmap).
      split; [done|]. exists records, (EvLoadGraph file :: events).
      rewrite Hq', Hev', Hq, Hev, <- app_assoc. by repeat split. }
    destruct (call_load_graph E file w) as [[g|e|n] w1]; simpl in *; auto.
    split; [done|]. exists [], [EvLoadGraph file]. rewrite app_nil_r. by repeat split.
  - set (w0 := emit (EvQuery g q (yields_now E g q w)) w).
    assert (Hw0 : instrumented w0) by exact Hw.
    destruct (query_call_logged g q w0 Hw0) as (Hw1 & Hev1 & recs1 & Hq1 & Hrec1 & Hmap1).
    assert (Hgo : forall r w1, instrumented w1 -> w_queries w1 = w_queries w ++ recs1 ->
              w_events w1 = w_events w ++ [EvQuery g q (yields_now E g q w)] ->
              instrumented (snd (run_engine E (k r) w1)) /\
              exists records events,
                w_queries (snd (run_engine E (k r) w1)) = w_queries w ++ records /\
                w_events (snd (run_engine E (k r) w1)) = w_events w ++ events /\
                Forall captured_record records /\
                map record_summary records = map Some (executed events)).
    { intros r w1 Hi Hq Hev.
      destruct (IH r w1 Hi) as (Hi' & records & events & Hq' & Hev' & Hrec & Hmap).
      split; [done|].
      exists (recs1 ++ records), (EvQuery g q (yields_now E g q w) :: events).
      rewrite Hq', Hev', Hq, Hev, <- !app_assoc. split; [done|]. split; [done|].
      split; [by apply Forall_app|].
      change (EvQuery g q (yields_now E g q w) :: events)
        with ([EvQuery g q (yields_now E g q w)] ++ events).
      rewrite executed_app, !map_app, Hmap. f_equal. exact Hmap1. }
    destruct ((results ← call_query E g q; list_of_results results) w0)
      as [[rows|e|n] w1]; simpl in *; auto.
    split; [done|]. exists recs1, [EvQuery g q (yields_now E g q w)].
    by repeat split.
Qed.




End InterceptorFacts.

(** ** The interceptor: what the caller gets, and the order of the log *)

Section InterceptorClaims.

Variable E : Env.

(** C6.  A query without side effect that yields [rows], called through
    the wrapper on graph [g]: the wrapper returns normally; one Captured
    Query Record is appended whose count is the number of rows; the result
    counted is exhausted; and the result handed to the caller is another,
    new one, produced by executing the query again, from which nothing has
    been read and which holds as many rows as the record says. *)
Theorem interceptor_hands_over_fresh_results (g : nat) (q : string) (w : world)
    (o : graph_obj) (rows : list row) :
  w_graphs w !! g = Some o ->
  side_effect_free E (go_graph o) q ->
  fst (sparql E (go_graph o) q) = inr rows ->
  exists results record w',
    capturing_query E g q w = (Returned results, w') /\
    w_queries w' = w_queries w ++ [record] /\
    captured_record record /\
    field "query" record = Some (VStr q) /\
    field "result_count" record = Some (VInt (Z.of_nat (length rows))) /\
    w_results w !! results = None /\
    results <> length (w_results w) /\
    w_results w' !! length (w_results w) = Some [] /\
    w_results w' !! results = Some rows /\
    w_results w' !! results = Some (match fst (sparql E (go_graph o) q) with
                                    | inr again => again
                                    | inl _ => []
                                    end) /\
    w_graphs w' !! g = Some o.
Proof.
  intros Hg Hpure Hrows.
  destruct (capturing_query_step E g q w o Hg) as (w1 & Hev & Hpat & Hgr & Hcase).
  unfold side_effect_free in Hpure. rewrite Hpure in Hgr. rewrite Hrows in *.
  destruct Hcase as (Hcq & Hres & elapsed & timestamp & Hq).
  assert (Hg1 : w_graphs w1 !! g = Some o).
  { rewrite Hgr. destruct o as [G c]. simpl.
    apply list_lookup_insert_eq. by eapply lookup_lt_Some. }
  rewrite (original_query_at E g q w1 o Hg1), Hrows, Hpure in Hcq.
  do 3 eexists. split; [exact Hcq|]. simpl.
  split; [exact Hq|]. split; [by do 4 eexists|]. split; [done|]. split; [done|].
  rewrite Hres, length_app. simpl.
  split; [apply lookup_ge_None_2; lia|]. split; [lia|].
  split; [rewrite <- app_assoc; simpl; by apply list_lookup_middle|].
  assert (Hnew : ((w_results w ++ [[]]) ++ [rows]) !! (length (w_results w) + 1)%nat = Some rows).
  { apply list_lookup_middle. rewrite length_app. simpl. lia. }
  split; [exact Hnew|]. split; [exact Hnew|].
  destruct o as [G c]. simpl in *. apply list_lookup_insert_eq.
  by eapply lookup_lt_Some.
Qed.


End InterceptorClaims.

(** ** The properties on the sample environment *)

Lemma interceptor_hands_over_fresh_results_witness :
  exists results w',
    capturing_query Sample.env 0 "SELECT ?s WHERE { ?s ?p ?o }"
      (set_graphs (fun _ => [mkGraphObj Sample.kg_graph true]) (initial_world "" ∅))
    = (Returned results, w') /\
    length <$> (w_results w' !! results) = Some 3%nat /\
    (field "result_count" <$> last (w_queries w')) = Some (Some (VInt 3)).
Proof.
  destruct (interceptor_hands_over_fresh_results Sample.env 0 "SELECT ?s WHERE { ?s ?p ?o }"
              (set_graphs (fun _ => [mkGraphObj Sample.kg_graph true]) (initial_world "" ∅))
              (mkGraphObj Sample.kg_graph true)
              (map (fun t : triple => [fst (fst t)]) (g_triples Sample.kg_graph)))
    as (results & record & w' & Hrun & Hq & _ & _ & Hcount & _ & _ & _ & Hres & _).
  - reflexivity.
  - reflexivity.
  - reflexivity.
  - exists results, w'. split; [exact Hrun|]. split.
    + rewrite Hres. reflexivity.
    + rewrite Hq, last_snoc. simpl. rewrite Hcount. reflexivity.
Defined.

(** Without the hypothesis the two executions can differ: a query that
    changes the store is recorded with 3 rows and hands 2 to the caller. *)
Example side_effect_breaks_count :
  exists results w',
    capturing_query Sample.consuming_env 0 "DELETE"
      (set_graphs (fun _ => [mkGraphObj Sample.kg_graph true]) (initial_world "" ∅))
    = (Returned results, w') /\
    length <$> (w_results w' !! results) = Some 2%nat /\
    (field "result_count" <$> last (w_queries w')) = Some (Some (VInt 3)).
Proof. do 2 eexists. split; [reflexivity|]. split; reflexivity. Qed.


(** The run of [Sample.rules]: three calls, the second one raises, two
    records, in call order. *)
Example sample_log :
  map record_summary
      (w_queries (snd (run_engine Sample.env (Sample.rules None)
                         (snd (capture_sparql_queries (initial_world "{}" ∅))))))
  = [ Some ("SELECT ?s WHERE { ?s ?p ?o }", 3); Some ("SELECT ?s WHERE { ?s a ?c }", 3) ].
Proof. reflexivity. Qed.


(** The records of that run in full: on the sample clock, which advances
    by 3 at every reading, each record holds an elapsed time of 3 and the
    reading taken right after as its timestamp. *)
Example sample_log_records :
  w_queries (snd (run_engine Sample.env (Sample.rules None)
                    (snd (capture_sparql_queries (initial_world "{}" ∅)))))
  = [ VDict [ ("query", VStr "SELECT ?s WHERE { ?s ?p ?o }"); ("execution_time", VFloat 3);
              ("result_count", VInt 3); ("timestamp", VStr "1006") ];
      VDict [ ("query", VStr "SELECT ?s WHERE { ?s a ?c }"); ("execution_time", VFloat 3);
              ("result_count", VInt 3); ("timestamp", VStr "1018") ] ].
Proof. vm_compute. reflexivity. Qed.

(** [main] runs the engine in an instrumented world with an empty log. *)
Lemma staged_instrumented (stdin : string) (fs : gmap string string) (config : string) :
  instrumented (staged (initial_world stdin fs) config) /\
  w_queries (staged (initial_world stdin fs) config) = [].
Proof. split; [split; [reflexivity | constructor] | reflexivity]. Qed.

(** C2 on the code: the request "not json".  Nothing is printed, so the
    invocation produces no document at all, and the status is 1; an engine
    failure on a request that parses, by contrast, prints the one failure
    document. *)
Theorem request_error_prints_nothing :
  w_stdout (run_world Sample.env (initial_world "not json" ∅)) = [] /\
  run_status Sample.env (initial_world "not json" ∅) = 1 /\
  length (w_stdout (run_world Sample.failing_env (initial_world "{}" ∅))) = 1%nat /\
  run_status Sample.failing_env (initial_world "{}" ∅) = 1.
Proof. vm_compute. repeat split. Qed.

Lemma malformed_request_uncaught_witness :
  fst (main Sample.env (initial_world "not json" ∅))
  = Raised (mkExn "JSONDecodeError" "Expecting value: line 1 column 1 (char 0)") /\
  run_status Sample.env (initial_world "not json" ∅) = 1 /\
  w_stdout (run_world Sample.env (initial_world "not json" ∅)) = [] /\
  w_events (run_world Sample.env (initial_world "not json" ∅)) = [] /\
  filter (fun ev => is_engine_call ev = true)
         (w_events (run_world Sample.env (initial_world "not json" ∅))) = [].
Proof.
  apply (malformed_request_uncaught Sample.env "not json" ∅). reflexivity.
Defined.

(** A run that fails in [initialize], after staging. *)
Lemma staged_file_removed_once_witness :
  (∅ : gmap string string) !! temp_name (initial_world "{}" ∅) = None /\
  w_fs (staged (initial_world "{}" ∅) "{}") !! temp_name (initial_world "{}" ∅)
    = Some "{}" /\
  w_fs (run_world Sample.failing_env (initial_world "{}" ∅))
    !! temp_name (initial_world "{}" ∅) = None /\
  removals (temp_name (initial_world "{}" ∅))
           (w_events (run_world Sample.failing_env (initial_world "{}" ∅))) = 1%nat /\
  w_fs (run_world Sample.failing_env (initial_world "{}" ∅)) = ∅.
Proof.
  apply (staged_file_removed_once Sample.failing_env "{}" ∅ (VDict []) "{}");
    reflexivity.
Defined.

(** The sample table is well formed and has the three columns. *)
Example sample_predictions_table :
  well_formed Sample.predictions /\ has_spo_columns Sample.predictions.
Proof.
  split; [split; [reflexivity | repeat constructor]|].
  repeat split; apply list_elem_of_In; simpl; tauto.
Qed.

(** The sample run: the engine hands back [Sample.predictions], a table of
    two rows with the three columns and one more, and the printed document
    lists the two triples of its rows, in row order, and counts two
    predictions. *)
Lemma new_triples_one_per_row_witness :
  fst (run_engine Sample.env (process_rules_call Sample.env Sample.context)
         (at_process_rules (temp_name (initial_world "{}" ∅)) Sample.context
            (set_reads S (staged (initial_world "{}" ∅) "{}"))))
  = Returned (Some Sample.predictions, Sample.enriched_graph) /\
  exists text output,
    w_stdout (run_world Sample.env (initial_world "{}" ∅)) = [text] /\
    json_dumps output = inr text /\
    field "new_triples" output
    = Some (VList [ VDict [("subject", VStr "ex:bob"); ("predicate", VStr "ex:knows");
                           ("object", VStr "ex:alice")];
                    VDict [("subject", VStr "ex:bob"); ("predicate", VStr "ex:likes");
                           ("object", VStr "ex:carol")] ]) /\
    (field "summary" output ≫= field "total_predictions") = Some (VInt 2).
Proof.
  split; [vm_compute; reflexivity|].
  destruct (new_triples_one_per_row Sample.env "{}" ∅)
    as (text & output & v & config & ctx & result_df & enriched_kg
        & Hout & Hdumps & Hv & Hconfig & Hctx & Hrun & Hrows);
    [vm_compute; reflexivity|].
  vm_compute in Hv. injection Hv as <-.
  vm_compute in Hconfig. injection Hconfig as <-.
  vm_compute in Hctx. injection Hctx as <-.
  vm_compute in Hrun. injection Hrun as <- <-.
  destruct (Hrows Sample.predictions eq_refl)
    as (new_triples & summary & Hnt & Hrel & _ & Hsum & Htotal);
    [apply sample_predictions_table | apply sample_predictions_table |].
  exists text, output. split; [exact Hout|]. split; [exact Hdumps|].
  split; [|by rewrite Hsum; simpl; rewrite Htotal].
  rewrite Hnt. do 2 f_equal.
  unfold Sample.predictions in Hrel. simpl in Hrel.
  apply Forall2_cons_inv_l in Hrel as (e1 & rest & (s1 & p1 & o1 & Hs1 & Hp1 & Ho1 & ->) & Hrel & ->).
  apply Forall2_cons_inv_l in Hrel as (e2 & rest' & (s2 & p2 & o2 & Hs2 & Hp2 & Ho2 & ->) & Hrel & ->).
  apply Forall2_nil_inv_l in Hrel as ->.
  vm_compute in Hs1, Hp1, Ho1, Hs2, Hp2, Ho2.
  injection Hs1 as <-. injection Hp1 as <-. injection Ho1 as <-.
  injection Hs2 as <-. injection Hp2 as <-. injection Ho2 as <-.
  reflexivity.
Defined.

(** The printed document of the sample run: two new triples, two
    predictions counted. *)
Example sample_run_new_triples :
  exists output,
    fst (build_output Sample.env (temp_name (initial_world "{}" ∅))
           (staged (initial_world "{}" ∅) "{}")) = Returned output /\
    field "new_triples" output
    = Some (VList [ VDict [("subject", VStr "ex:bob"); ("predicate", VStr "ex:knows");
                           ("object", VStr "ex:alice")];
                    VDict [("subject", VStr "ex:bob"); ("predicate", VStr "ex:likes");
                           ("object", VStr "ex:carol")] ]) /\
    (field "summary" output ≫= field "total_predictions") = Some (VInt 2).
Proof. eexists. split; [vm_compute; reflexivity|]. split; reflexivity. Qed.

(** A table with a numpy cell: [output] is assembled, its encoding raises,
    and the failure document is all that is printed. *)
Lemma unserializable_output_fails_whole_witness :
  run_status (Sample.env_with (Some Sample.numpy_predictions)) (initial_world "{}" ∅) = 1 /\
  exists text timestamp,
    w_stdout (run_world (Sample.env_with (Some Sample.numpy_predictions))
                (initial_world "{}" ∅)) = [text] /\
    json_dumps (error_output (TypeError "Object of type int64 is not JSON serializable")
                  timestamp) = inr text /\
    failure_envelope (error_output (TypeError "Object of type int64 is not JSON serializable")
                        timestamp).
Proof.
  eapply (unserializable_output_fails_whole (Sample.env_with (Some Sample.numpy_predictions))
            "{}" ∅ (VDict []) "{}").
  - reflexivity.
  - reflexivity.
  - vm_compute. reflexivity.
  - vm_compute. reflexivity.
Defined.

(** * Further properties of the translators *)



(** ** More on [graph_to_json] *)

Section GraphToJsonMore.

Lemma namespaces_loop_pairs (bindings : list (string * string)) :
  namespaces_loop bindings
  = dict_of_pairs (map (fun b => (fst b, VStr (snd b))) bindings).
Proof.
  unfold namespaces_loop, dict_of_pairs. generalize ([] : dict) as d.
  induction bindings as [|b bindings IH]; intros d; simpl; [done|]. apply IH.
Qed.

(** A negative limit is true in the loop's test and reached at once: only
    the first triple of the enumeration is emitted (none for an empty
    store), the total is still the size of the store, and [limited_to]
    carries the negative number. *)
Theorem graph_to_json_negative_limit (g : Graph) (n : Z) :
  n < 0 ->
  field "triples" (graph_to_json g (Some n))
    = Some (VList (map triple_entry (take 1 (g_triples g)))) /\
  field "total_triples" (graph_to_json g (Some n)) = Some (VInt (graph_len g)) /\
  field "limited_to" (graph_to_json g (Some n)) = Some (VInt n).
Proof.
  intros Hn. rewrite graph_to_json_triples.
  assert (Hn0 : (n =? 0) = false) by lia. rewrite Hn0.
  replace (Z.to_nat (Z.max 1 n)) with 1%nat by lia.
  split; [done|]. split; [done|].
  unfold graph_to_json, field, limit_truthy. simpl. by rewrite Hn0.
Qed.

Lemma graph_to_json_negative_limit_witness :
  field "triples" (graph_to_json Sample.kg_graph (Some (-5)))
    = Some (VList [triple_entry Sample.alice_knows_bob]) /\
  field "limited_to" (graph_to_json Sample.kg_graph (Some (-5))) = Some (VInt (-5)).
Proof.
  destruct (graph_to_json_negative_limit Sample.kg_graph (-5)) as (Ht & _ & Hl); [lia|].
  split; [exact Ht | exact Hl].
Defined.

(** The [namespaces] entry has one key per registered prefix and no other,
    each mapped to the text of a URI bound to that prefix; when every
    prefix is bound once, it lists the bindings in the order
    [graph.namespaces()] yields them. *)
Theorem graph_to_json_namespaces (g : Graph) (limit : option Z) :
  exists namespaces,
    field "namespaces" (graph_to_json g limit) = Some (VDict namespaces) /\
    NoDup (dict_keys namespaces) /\
    (forall prefix, prefix ∈ dict_keys namespaces <-> prefix ∈ map fst (g_namespaces g)) /\
    (forall prefix v, dict_get prefix namespaces = Some v ->
       exists uri, v = VStr uri /\ (prefix, uri) ∈ g_namespaces g) /\
    (NoDup (map fst (g_namespaces g)) ->
     namespaces = map (fun b => (fst b, VStr (snd b))) (g_namespaces g)).
Proof.
  exists (namespaces_loop (g_namespaces g)). split; [done|].
  rewrite namespaces_loop_pairs. split; [apply dict_keys_of_pairs_NoDup|].
  split; [|split].
  - intros prefix. rewrite dict_keys_of_pairs, map_map. done.
  - intros prefix v Hget. rewrite dict_get_of_pairs in Hget.
    apply dict_get_Some_elem, list_elem_of_In, in_rev, in_map_iff in Hget
      as ([p uri] & [= <- <-] & Hin).
    exists uri. split; [done | by apply list_elem_of_In].
  - intros Hnd. apply dict_of_pairs_distinct. by rewrite map_map.
Qed.

Lemma graph_json_accepted (g : Graph) (limit : option Z) :
  serializable (graph_to_json g limit).
Proof.
  unfold graph_to_json. apply serializable_dict. repeat constructor; simpl.
  - apply serializable_list.
    generalize (@nil pyval) (Forall_nil_2 serializable) 0.
    induction (g_triples g) as [|[[s p] o] rest IH]; intros triples Hall count; simpl; [done|].
    assert (Hnext : Forall serializable (triples ++ [triple_entry (s, p, o)])).
    { apply Forall_app. split; [done|]. repeat constructor.
      apply serializable_dict. repeat constructor; apply serializable_str. }
    destruct (limit_reached limit (count + 1)); [done | by apply IH].
  - apply serializable_int.
  - apply serializable_dict. rewrite namespaces_loop_pairs. unfold dict_of_pairs.
    apply fold_set_values; [|constructor].
    apply Forall_fmap, Forall_forall. intros b _. apply serializable_str.
  - destruct limit as [n|]; [destruct (limit_truthy (Some n))|]; by eexists.
Qed.

(** The translation of a graph never stops the envelope from being
    encoded: [json.dumps] accepts it for every graph and every limit, and
    so it accepts every entry of [triples]. *)
Theorem graph_to_json_serializable (g : Graph) (limit : option Z) :
  serializable (graph_to_json g limit) /\
  forall triples, field "triples" (graph_to_json g limit) = Some (VList triples) ->
    Forall serializable triples.
Proof.
  split; [apply graph_json_accepted|].
  rewrite graph_to_json_triples. intros triples [= <-].
  apply Forall_fmap, Forall_forall. intros [[s p] o] _.
  apply serializable_dict. repeat constructor; apply serializable_str.
Qed.

End GraphToJsonMore.

(** ** More on [dataframe_to_json] *)

Section DataframeToJsonMore.

(** With column labels that are pairwise distinct, every record lists the
    row's cells under their column labels in column order, [dtypes] lists
    the columns' dtypes in column order, and reading a record under a
    column label gives back the row's cell in that column. *)
Theorem dataframe_to_json_distinct_labels (d : DataFrame) :
  empty d = false -> well_formed d -> NoDup (df_columns d) ->
  field "data" (dataframe_to_json (Some d))
    = Some (VList (map (fun row => VDict (zip (df_columns d) row)) (df_rows d))) /\
  field "dtypes" (dataframe_to_json (Some d))
    = Some (VDict (zip (df_columns d) (map (fun t => VStr (dtype_str t)) (df_dtypes d)))) /\
  forall i row j c x,
    df_rows d !! i = Some row -> df_columns d !! j = Some c -> row !! j = Some x ->
    exists record,
      to_dict_records d !! i = Some record /\ field c record = Some x.
Proof.
  intros Hne [Hdt Hrows] Hnd. simpl. rewrite Hne. simpl.
  assert (Hrec : forall row, length row = length (df_columns d) ->
            dict_of_pairs (zip (df_columns d) row) = zip (df_columns d) row).
  { intros row Hlen. apply dict_of_pairs_distinct.
    change (map fst (zip (df_columns d) row)) with ((zip (df_columns d) row).*1).
    rewrite fst_zip by lia. done. }
  split; [|split].
  - do 2 f_equal. unfold to_dict_records. apply map_ext_Forall.
    eapply Forall_impl; [exact Hrows|]. intros row Hlen. simpl. by rewrite Hrec.
  - unfold dtypes_to_dict. rewrite Hrec; [done | by rewrite length_map].
  - intros i row j c x Hi Hj Hx. unfold to_dict_records.
    change (map ?f ?l) with (f <$> l). rewrite list_lookup_fmap, Hi. simpl.
    eexists. split; [done|]. simpl.
    pose proof (Forall_lookup_1 _ _ _ _ Hrows Hi) as Hlen. simpl in Hlen.
    rewrite Hrec by done.
    apply (dict_get_distinct_lookup _ j).
    + change (map fst (zip (df_columns d) row)) with ((zip (df_columns d) row).*1).
      rewrite fst_zip by lia. done.
    + apply lookup_zip_with_Some. eauto.
Qed.

Lemma dataframe_to_json_distinct_labels_witness :
  exists record,
    to_dict_records Sample.predictions !! 1%nat = Some record /\
    field "predicate" record = Some (VStr "ex:likes").
Proof.
  destruct (dataframe_to_json_distinct_labels Sample.predictions) as (_ & _ & Hcell).
  - reflexivity.
  - split; [reflexivity | repeat constructor].
  - apply NoDup_ListNoDup. repeat constructor; simpl; intuition discriminate.
  - eapply (Hcell 1%nat _ 1%nat "predicate" (VStr "ex:likes")); reflexivity.
Defined.

Lemma table_json_accepted (df : option DataFrame) :
  (forall d, df = Some d -> Forall (Forall serializable) (df_rows d)) ->
  serializable (dataframe_to_json df).
Proof.
  intros Hcells.
  assert (Hempty : serializable empty_table_json).
  { apply serializable_dict. repeat constructor; simpl;
      apply serializable_list; repeat constructor; apply serializable_int. }
  destruct df as [d|]; [|exact Hempty]. simpl.
  destruct (empty d); [exact Hempty|].
  specialize (Hcells d eq_refl).
  apply serializable_dict. repeat constructor; simpl.
  - apply serializable_list, Forall_fmap, Forall_forall. intros c _. apply serializable_str.
  - apply serializable_list. unfold to_dict_records. apply Forall_fmap.
    eapply Forall_impl; [exact Hcells|]. intros row Hrow. simpl.
    apply serializable_dict. unfold dict_of_pairs.
    apply fold_set_values; [|constructor].
    apply Forall_forall. intros [c x] Hin. simpl.
    apply list_elem_of_lookup in Hin as [i Hi].
    apply lookup_zip_with_Some in Hi as (c' & x' & [= <- <-] & _ & Hx).
    apply (proj1 (Forall_forall _ _) Hrow). by eapply list_elem_of_lookup_2.
  - apply serializable_list. repeat constructor; apply serializable_int.
  - apply serializable_dict. unfold dtypes_to_dict, dict_of_pairs.
    apply fold_set_values; [|constructor].
    apply Forall_forall. intros [c x] Hin. simpl.
    apply list_elem_of_lookup in Hin as [i Hi].
    apply lookup_zip_with_Some in Hi as (c' & x' & [= <- <-] & _ & Hx).
    apply list_lookup_fmap_Some in Hx as (t & -> & _). apply serializable_str.
Qed.

(** The cells meant here are the Python objects [to_dict('records')]
    hands out, numpy scalars already boxed.  When the encoder accepts every
    one of them, it accepts the table's translation, and an absent table
    translates to an accepted value as well; conversely, for a table that
    is not empty and whose column labels are pairwise distinct, a
    translation the encoder accepts has only such cells. *)
Theorem dataframe_to_json_serializable (df : option DataFrame) :
  ((forall d, df = Some d -> Forall (Forall serializable) (df_rows d)) ->
   serializable (dataframe_to_json df)) /\
  (forall d, df = Some d -> empty d = false -> well_formed d -> NoDup (df_columns d) ->
   serializable (dataframe_to_json df) -> Forall (Forall serializable) (df_rows d)).
Proof.
  split; [apply table_json_accepted|].
  intros d -> Hne [_ Hrows] Hnd Hs. simpl in Hs. rewrite Hne in Hs.
  apply serializable_dict_inv in Hs.
  inversion Hs as [|? ? _ Hs1]; subst. inversion Hs1 as [|? ? Hdata _]; subst.
  simpl in Hdata. apply serializable_list_inv in Hdata. unfold to_dict_records in Hdata.
  apply Forall_forall. intros row Hin.
  pose proof (proj1 (Forall_forall _ _) Hrows row Hin) as Hlen.
  assert (Hrec : serializable (VDict (dict_of_pairs (zip (df_columns d) row)))).
  { apply (proj1 (Forall_forall _ _) Hdata).
    apply list_elem_of_In, (in_map (fun row => VDict (dict_of_pairs (zip (df_columns d) row)))).
    by apply list_elem_of_In. }
  simpl in *.
  rewrite dict_of_pairs_distinct in Hrec.
  2: { change (map fst (zip (df_columns d) row)) with ((zip (df_columns d) row).*1).
       rewrite fst_zip by lia. done. }
  apply serializable_dict_inv in Hrec.
  apply Forall_forall. intros x Hx.
  apply list_elem_of_lookup in Hx as [j Hj].
  destruct (lookup_lt_is_Some_2 (df_columns d) j) as [c Hc].
  { rewrite <- Hlen. by eapply lookup_lt_Some. }
  apply (proj1 (Forall_forall _ _) Hrec (c, x)).
  apply (list_elem_of_lookup_2 _ j). apply lookup_zip_with_Some. eauto.
Qed.

Lemma dataframe_to_json_serializable_witness :
  serializable (dataframe_to_json (Some Sample.predictions)).
Proof.
  apply dataframe_to_json_serializable. intros d [= <-].
  repeat constructor; by eexists.
Defined.

End DataframeToJsonMore.

(** ** More on the new triples *)

Section NewTriplesMore.

(** On a table with at least one row and one column, the loop stops at
    the first row with the KeyError of the first of "subject", "predicate",
    "object" that names no column. *)
Theorem collect_new_triples_missing_column (d : DataFrame) :
  well_formed d -> empty d = false -> NoDup (df_columns d) ->
  ("subject" ∉ df_columns d ->
   collect_new_triples (Some d) = inl (KeyError "subject")) /\
  ("subject" ∈ df_columns d -> "predicate" ∉ df_columns d ->
   collect_new_triples (Some d) = inl (KeyError "predicate")) /\
  ("subject" ∈ df_columns d -> "predicate" ∈ df_columns d -> "object" ∉ df_columns d ->
   collect_new_triples (Some d) = inl (KeyError "object")).
Proof.
  intros [_ Hrows] Hne Hnd. unfold collect_new_triples, iterrows. rewrite Hne.
  unfold empty in Hne. destruct (df_rows d) as [|row rows]; [done|].
  inversion Hrows as [|? ? Hlen _]; subst. simpl.
  set (series := map (df_item d) row).
  assert (Hseries : length series = length (df_columns d))
    by (unfold series; by rewrite length_map).
  assert (Habsent : forall label, label ∉ df_columns d ->
            row_getitem (df_columns d) series label = inl (KeyError label)).
  { intros label H. unfold row_getitem. by rewrite row_getitem_absent. }
  split; [|split].
  - intros Hs. by rewrite (Habsent _ Hs).
  - intros Hs Hp.
    destruct (row_getitem_unique (df_columns d) series "subject" Hnd Hs Hseries)
      as (s & _ & ->).
    by rewrite (Habsent _ Hp).
  - intros Hs Hp Ho.
    destruct (row_getitem_unique (df_columns d) series "subject" Hnd Hs Hseries)
      as (s & _ & ->).
    destruct (row_getitem_unique (df_columns d) series "predicate" Hnd Hp Hseries)
      as (p & _ & ->).
    by rewrite (Habsent _ Ho).
Qed.

Lemma collect_new_triples_missing_column_witness :
  collect_new_triples (Some MoreSamples.no_subject) = inl (KeyError "subject").
Proof.
  destruct (collect_new_triples_missing_column MoreSamples.no_subject) as (Hs & _).
  - split; [reflexivity | repeat constructor].
  - reflexivity.
  - apply NoDup_ListNoDup. repeat constructor; simpl; intuition discriminate.
  - apply Hs. intros Hin. apply list_elem_of_In in Hin. simpl in Hin.
    intuition discriminate.
Defined.

End NewTriplesMore.

(** ** More on the interceptor *)

Section InterceptorMore.

Variable E : Env.

(** The wrapper executes the query twice.  When the first execution yields
    rows, the store of the graph afterwards is the store after two
    executions, the record counts the rows of the first, and the caller
    gets the rows of the second, or its exception (the record stays). *)
Theorem wrapper_executes_query_twice (g : nat) (q : string) (w : world)
    (o : graph_obj) (rows1 : list row) :
  w_graphs w !! g = Some o ->
  fst (sparql E (go_graph o) q) = inr rows1 ->
  exists record,
    w_queries (snd (capturing_query E g q w)) = w_queries w ++ [record] /\
    field "result_count" record = Some (VInt (Z.of_nat (length rows1))) /\
    w_graphs (snd (capturing_query E g q w)) !! g
      = Some (mkGraphObj (snd (sparql E (snd (sparql E (go_graph o) q)) q)) (go_capturing o)) /\
    match fst (sparql E (snd (sparql E (go_graph o) q)) q) with
    | inr rows2 =>
        exists results,
          fst (capturing_query E g q w) = Returned results /\
          w_results (snd (capturing_query E g q w)) !! results = Some rows2
    | inl e => fst (capturing_query E g q w) = Raised e
    end.
Proof.
  intros Hg Hrows.
  destruct (capturing_query_step E g q w o Hg) as (w1 & Hev & Hpat & Hgr & Hcase).
  rewrite Hrows in Hcase. destruct Hcase as (Hcq & Hres & elapsed & timestamp & Hq).
  assert (Hlt : (g < length (w_graphs w))%nat) by (by eapply lookup_lt_Some).
  assert (Hg1 : w_graphs w1 !! g
                = Some (mkGraphObj (snd (sparql E (go_graph o) q)) (go_capturing o))).
  { rewrite Hgr. by apply list_lookup_insert_eq. }
  rewrite (original_query_at E g q w1 _ Hg1) in Hcq. simpl in Hcq.
  eexists. rewrite Hcq.
  destruct (fst (sparql E (snd (sparql E (go_graph o) q)) q)) as [e|rows2]; simpl.
  - split; [exact Hq|]. split; [done|]. split; [|done].
    apply list_lookup_insert_eq. rewrite Hgr, length_insert. done.
  - split; [exact Hq|]. split; [done|]. split.
    + apply list_lookup_insert_eq. rewrite Hgr, length_insert. done.
    + eexists. split; [done|]. by apply list_lookup_middle.
Qed.

(** A query whose execution raises: the exception goes to the caller,
    nothing is appended to the log, no result object is created, and the
    query was executed once. *)
Theorem failed_query_leaves_no_record (g : nat) (q : string) (w : world)
    (o : graph_obj) (e : exn) :
  w_graphs w !! g = Some o ->
  fst (sparql E (go_graph o) q) = inl e ->
  fst (capturing_query E g q w) = Raised e /\
  w_queries (snd (capturing_query E g q w)) = w_queries w /\
  w_results (snd (capturing_query E g q w)) = w_results w /\
  w_graphs (snd (capturing_query E g q w)) !! g
    = Some (mkGraphObj (snd (sparql E (go_graph o) q)) (go_capturing o)).
Proof.
  intros Hg Hraise.
  destruct (capturing_query_step E g q w o Hg) as (w1 & Hev & Hpat & Hgr & Hcase).
  rewrite Hraise in Hcase. destruct Hcase as (-> & Hq & Hres). simpl.
  repeat split; try done. rewrite Hgr. apply list_lookup_insert_eq.
  by eapply lookup_lt_Some.
Qed.

(** [load_graph] once the module is patched: a graph that loads gets a new
    handle and the capturing [query], the graphs loaded before stay as
    they are and nothing is logged; when the engine's loader raises, the
    exception goes through and no graph is added. *)
Theorem patched_load_graph_wraps (file : string) (w : world) :
  w_patched w = true ->
  match load_graph E file with
  | inr G =>
      fst (call_load_graph E file w) = Returned (length (w_graphs w)) /\
      w_graphs (snd (call_load_graph E file w)) = w_graphs w ++ [mkGraphObj G true]
  | inl e =>
      fst (call_load_graph E file w) = Raised e /\
      w_graphs (snd (call_load_graph E file w)) = w_graphs w
  end /\
  w_queries (snd (call_load_graph E file w)) = w_queries w.
Proof.
  intros Hp. unfold call_load_graph. rewrite Hp.
  unfold patched_load_graph, original_load_graph, mbind, M_bind, modify.
  destruct (load_graph E file) as [e|G]; simpl; [done|].
  rewrite lookup_app_r by lia. rewrite Nat.sub_diag. simpl.
  rewrite insert_app_r_alt by lia. by rewrite Nat.sub_diag.
Qed.


End InterceptorMore.

Lemma wrapper_executes_query_twice_witness :
  exists record,
    w_queries (snd (capturing_query Sample.consuming_env 0 "DELETE"
                 (set_graphs (fun _ => [mkGraphObj Sample.kg_graph true])
                    (initial_world "" ∅)))) = [] ++ [record] /\
    field "result_count" record = Some (VInt 3) /\
    (length ∘ g_triples ∘ go_graph <$>
       w_graphs (snd (capturing_query Sample.consuming_env 0 "DELETE"
                   (set_graphs (fun _ => [mkGraphObj Sample.kg_graph true])
                      (initial_world "" ∅)))) !! 0%nat) = Some 1%nat.
Proof.
  destruct (wrapper_executes_query_twice Sample.consuming_env 0 "DELETE"
              (set_graphs (fun _ => [mkGraphObj Sample.kg_graph true]) (initial_world "" ∅))
              (mkGraphObj Sample.kg_graph true)
              (map (fun t : triple => [fst (fst t)]) (g_triples Sample.kg_graph)))
    as (record & Hq & Hcount & Hstore & _).
  - reflexivity.
  - reflexivity.
  - exists record. split; [exact Hq|]. split; [exact Hcount|].
    rewrite Hstore. reflexivity.
Defined.

Lemma failed_query_leaves_no_record_witness :
  fst (capturing_query Sample.env 0 ""
         (set_graphs (fun _ => [mkGraphObj Sample.kg_graph true]) (initial_world "" ∅)))
    = Raised (mkExn "ParseException" "Expected SelectQuery") /\
  w_queries (snd (capturing_query Sample.env 0 ""
               (set_graphs (fun _ => [mkGraphObj Sample.kg_graph true])
                  (initial_world "" ∅)))) = [].
Proof.
  destruct (failed_query_leaves_no_record Sample.env 0 ""
              (set_graphs (fun _ => [mkGraphObj Sample.kg_graph true]) (initial_world "" ∅))
              (mkGraphObj Sample.kg_graph true)
              (mkExn "ParseException" "Expected SelectQuery"))
    as (Hout & Hq & _).
  - reflexivity.
  - reflexivity.
  - split; [exact Hout | exact Hq].
Defined.

Lemma patched_load_graph_wraps_witness :
  w_graphs (snd (call_load_graph Sample.env "kg.nt"
                   (snd (capture_sparql_queries (initial_world "{}" ∅)))))
  = [mkGraphObj Sample.kg_graph true].
Proof.
  destruct (patched_load_graph_wraps Sample.env "kg.nt"
              (snd (capture_sparql_queries (initial_world "{}" ∅)))) as [Hload _].
  - reflexivity.
  - simpl in Hload. destruct Hload as [_ Hgraphs]. exact Hgraphs.
Defined.


(** ** More on the runs of [main] *)

Section MainMore.

Variable E : Env.

(** Lines 154-210 in closed form. *)
Lemma translate_eq start ctx G0 df kg w :
  translate E start (ctx, graph_to_json G0 (Some 100), df, kg) w
  = match collect_new_triples df with
    | inl e => (Raised e, w)
    | inr new_triples =>
        (Returned (success_output E start (clock E (w_reads w))
                     (isoformat (clock E (S (w_reads w)))) ctx G0 df kg
                     new_triples (w_queries w)),
         set_reads S (set_reads S w))
    end.
Proof.
  unfold translate, mbind, M_bind, lift.
  destruct (collect_new_triples df) as [e|new_triples]; reflexivity.
Qed.

Lemma instrumented_emit ev w : instrumented w -> instrumented (emit ev w).
Proof. done. Qed.

(** Lines 138-152 when they run to their end. *)
Lemma engine_steps_inv path w ctx ij df kg w' :
  instrumented w ->
  engine_steps E path w = (Returned (ctx, ij, df, kg), w') ->
  exists G0 records events,
    initialize E (w_fs w) path = inr ctx /\
    nt_parse E (w_fs w) (ctx_rdf_data ctx) = inr G0 /\
    ij = graph_to_json G0 (Some 100) /\
    w_queries w' = w_queries w ++ records /\
    w_events w'
    = w_events w ++ [EvInitialize path; EvParse (ctx_rdf_data ctx); EvProcessRules] ++ events /\
    Forall captured_record records /\
    map record_summary records = map Some (executed events).
Proof.
  intros Hw. unfold engine_steps, mbind, M_bind, modify, lift. simpl.
  destruct (initialize E (w_fs w) path) as [e|ctx']; [done|]. simpl.
  destruct (nt_parse E (w_fs w) (ctx_rdf_data ctx')) as [e|G0] eqn:Hparse; [done|]. simpl.
  match goal with
  | |- context [run_engine E ?p ?w2] =>
      destruct (run_engine_logged E p w2) as (_ & records & events & Hq & Hev & Hrec & Hmap);
        [by repeat apply instrumented_emit|];
        destruct (run_engine E p w2) as [[[df' kg']|e|n] w3]; [|done..]
  end.
  simpl in *. intros [= <- <- <- <- <-].
  exists G0, records, events. repeat split; try done.
  rewrite Hev, <- !app_assoc. done.
Qed.

Lemma executed_engine_steps path source events :
  executed ([EvInitialize path; EvParse source; EvProcessRules] ++ events ++ [EvRemove path])
  = executed events.
Proof.
  unfold executed. simpl. rewrite omap_app. simpl. by rewrite app_nil_r.
Qed.





End MainMore.

Section MainExtras.

Variable E : Env.

Lemma main_stage_fails w v e :
  json_load E (w_stdin w) = inr v -> json_dumps v = inl e ->
  main E w = (Raised e, set_fs (insert (temp_name w) "")
                          (set_patched true (set_queries (fun _ => []) w))).
Proof.
  intros Hl Hd. unfold main, mbind, M_bind, capture_sparql_queries, modify,
    json_load_stdin, stage_config.
  simpl. rewrite Hl. simpl. by rewrite Hd.
Qed.

Lemma build_output_initialize_fails path w e :
  initialize E (w_fs w) path = inl e ->
  build_output E path w = (Raised e, emit (EvInitialize path) (set_reads S w)).
Proof.
  intros H. unfold build_output, engine_steps, mbind, M_bind, modify, lift, time_time.
  simpl. by rewrite H.
Qed.

Lemma build_output_parse_fails path w ctx e :
  initialize E (w_fs w) path = inr ctx ->
  nt_parse E (w_fs w) (ctx_rdf_data ctx) = inl e ->
  build_output E path w
  = (Raised e, emit (EvParse (ctx_rdf_data ctx)) (emit (EvInitialize path) (set_reads S w))).
Proof.
  intros Hi Hp. unfold build_output, engine_steps, mbind, M_bind, modify, lift, time_time.
  simpl. rewrite Hi. simpl. by rewrite Hp.
Qed.

(** Whatever the request and the engine, the process prints at most one
    document.  When it prints one, it ends normally, with status 0, or by
    the handler's [sys.exit(1)].  When it prints none, either an exception
    raised before the [try] statement ended it, with status 1, or the
    engine ended the process itself, and the status is the engine's. *)
Theorem run_status_zero_or_one (stdin : string) (fs : gmap string string) :
  (exists text,
     w_stdout (run_world E (initial_world stdin fs)) = [text] /\
     (fst (main E (initial_world stdin fs)) = Returned tt \/
      fst (main E (initial_world stdin fs)) = Exiting 1) /\
     (run_status E (initial_world stdin fs) = 0 \/
      run_status E (initial_world stdin fs) = 1)) \/
  (w_stdout (run_world E (initial_world stdin fs)) = [] /\
   ((exists e, fst (main E (initial_world stdin fs)) = Raised e /\
               run_status E (initial_world stdin fs) = 1) \/
    (exists v config n,
       json_load E stdin = inr v /\ json_dumps v = inr config /\
       fst (build_output E (temp_name (initial_world stdin fs))
              (staged (initial_world stdin fs) config)) = Exiting n /\
       fst (main E (initial_world stdin fs)) = Exiting n /\
       run_status E (initial_world stdin fs) = n))).
Proof.
  destruct (json_load E stdin) as [e|v] eqn:Hl.
  { right. unfold run_status, run_world.
    rewrite (main_malformed E (initial_world stdin fs) e Hl). simpl.
    split; [done|]. left. by exists e. }
  destruct (json_dumps v) as [e|config] eqn:Hd.
  { right. unfold run_status, run_world.
    rewrite (main_stage_fails (initial_world stdin fs) v e Hl Hd). simpl.
    split; [done|]. left. by exists e. }
  destruct (staged_run_one_envelope E stdin fs v config Hl Hd)
    as [(text & doc & Hout & _ & Hcase) | (n & Hb & Hm & Hout)].
  - left. exists text. split; [exact Hout|]. unfold run_status.
    destruct Hcase as [[-> _] | [-> _]]; simpl; auto.
  - right. split; [exact Hout|]. right. exists v, config, n.
    unfold run_status. rewrite Hm. done.
Qed.

(** A request that does not parse leaves every file as it was: no
    configuration file is staged, and nothing is removed. *)
Theorem malformed_request_stages_nothing (stdin : string) (fs : gmap string string)
    (e : exn) :
  json_load E stdin = inl e ->
  w_fs (run_world E (initial_world stdin fs)) = fs /\
  forall path, removals path (w_events (run_world E (initial_world stdin fs))) = 0%nat.
Proof.
  intros Hl. unfold run_world.
  by rewrite (main_malformed E (initial_world stdin fs) e Hl).
Qed.

(** Any exception [e] on the way to [output], from the engine or from the
    translation, ends the run with status 1 and one printed document: the
    encoding of the failure dictionary whose error is [str(e)] and whose
    traceback is that of [e]. *)
Theorem engine_failure_reported (stdin : string) (fs : gmap string string)
    (v : pyval) (config : string) (e : exn) :
  json_load E stdin = inr v -> json_dumps v = inr config ->
  fst (build_output E (temp_name (initial_world stdin fs))
         (staged (initial_world stdin fs) config)) = Raised e ->
  run_status E (initial_world stdin fs) = 1 /\
  exists text timestamp,
    w_stdout (run_world E (initial_world stdin fs)) = [text] /\
    json_dumps (VDict [ ("success", VBool false); ("error", VStr (exn_str e));
                        ("traceback", VStr (format_exc e));
                        ("timestamp", VStr timestamp) ]) = inr text.
Proof.
  intros Hl Hd Hraise. set (w := initial_world stdin fs) in *.
  unfold run_status, run_world. rewrite (main_staged E w v config Hl Hd).
  destruct (guarded_run_spec E (temp_name w) (staged w config)) as
    (o & w1 & Hb & Hq & Hcases); [by rewrite staged_file|].
  rewrite Hb in Hraise. simpl in Hraise. subst o.
  destruct Hq as (_ & Hout & _).
  destruct Hcases as [(output & text & [=] & _) | [(e' & He' & ->) | (n & [=] & _)]].
  assert (e' = e) as ->.
  { destruct He' as [[= ->] | (output & [=] & _)]. done. }
  simpl. split; [done|].
  exists (failure_text E e w1), (isoformat (clock E (w_reads w1))).
  rewrite Hout. split; [done|]. apply (json_dumps_error_output E e w1).
Qed.

(** When [initialize] raises, the run stops there: no graph is parsed,
    [process_rules] is not called, the failure document for that exception
    is printed and the staged file is removed. *)
Theorem initialize_failure_stops_run (stdin : string) (fs : gmap string string)
    (v : pyval) (config : string) (e : exn) :
  json_load E stdin = inr v -> json_dumps v = inr config ->
  initialize E (w_fs (staged (initial_world stdin fs) config))
    (temp_name (initial_world stdin fs)) = inl e ->
  run_status E (initial_world stdin fs) = 1 /\
  w_events (run_world E (initial_world stdin fs))
    = [ EvInitialize (temp_name (initial_world stdin fs));
        EvRemove (temp_name (initial_world stdin fs)) ] /\
  exists text timestamp,
    w_stdout (run_world E (initial_world stdin fs)) = [text] /\
    json_dumps (error_output e timestamp) = inr text.
Proof.
  intros Hl Hd Hinit. set (w := initial_world stdin fs) in *.
  unfold run_status, run_world. rewrite (main_staged E w v config Hl Hd).
  destruct (guarded_run_spec E (temp_name w) (staged w config)) as
    (o & w1 & Hb & Hq & Hcases); [by rewrite staged_file|].
  pose proof (build_output_initialize_fails _ _ _ Hinit) as Hbuild.
  rewrite Hbuild in Hb. injection Hb as <- <-.
  destruct Hcases as [(output & text & [=] & _) | [(e' & He' & ->) | (n & [=] & _)]].
  assert (e' = e) as ->.
  { destruct He' as [[= ->] | (output & [=] & _)]. done. }
  simpl. split; [done|]. split; [done|].
  do 2 eexists. split; [done|]. reflexivity.
Qed.

(** When the initial graph cannot be parsed, [process_rules] is not
    called: after [initialize] and the parse only the removal of the
    staged file follows, and the failure document is printed. *)
Theorem parse_failure_skips_process_rules (stdin : string) (fs : gmap string string)
    (v : pyval) (config : string) (ctx : Context) (e : exn) :
  json_load E stdin = inr v -> json_dumps v = inr config ->
  initialize E (w_fs (staged (initial_world stdin fs) config))
    (temp_name (initial_world stdin fs)) = inr ctx ->
  nt_parse E (w_fs (staged (initial_world stdin fs) config)) (ctx_rdf_data ctx) = inl e ->
  run_status E (initial_world stdin fs) = 1 /\
  w_events (run_world E (initial_world stdin fs))
    = [ EvInitialize (temp_name (initial_world stdin fs));
        EvParse (ctx_rdf_data ctx);
        EvRemove (temp_name (initial_world stdin fs)) ] /\
  exists text timestamp,
    w_stdout (run_world E (initial_world stdin fs)) = [text] /\
    json_dumps (error_output e timestamp) = inr text.
Proof.
  intros Hl Hd Hinit Hparse. set (w := initial_world stdin fs) in *.
  unfold run_status, run_world. rewrite (main_staged E w v config Hl Hd).
  destruct (guarded_run_spec E (temp_name w) (staged w config)) as
    (o & w1 & Hb & Hq & Hcases); [by rewrite staged_file|].
  pose proof (build_output_parse_fails _ _ _ _ Hinit Hparse) as Hbuild.
  rewrite Hbuild in Hb. injection Hb as <- <-.
  destruct Hcases as [(output & text & [=] & _) | [(e' & He' & ->) | (n & [=] & _)]].
  assert (e' = e) as ->.
  { destruct He' as [[= ->] | (output & [=] & _)]. done. }
  simpl. split; [done|]. split; [done|].
  do 2 eexists. split; [done|]. reflexivity.
Qed.

End MainExtras.

Section SuccessfulRuns.

Variable E : Env.

(** Everything a run that ends normally went through. *)
Lemma successful_run_inv (stdin : string) (fs : gmap string string) :
  fst (main E (initial_world stdin fs)) = Returned tt ->
  exists v config ctx G0 df kg w' new_triples records events text start,
    json_load E stdin = inr v /\ json_dumps v = inr config /\
    initialize E (w_fs (staged (initial_world stdin fs) config))
      (temp_name (initial_world stdin fs)) = inr ctx /\
    nt_parse E (w_fs (staged (initial_world stdin fs) config)) (ctx_rdf_data ctx) = inr G0 /\
    run_engine E (process_rules_call E ctx)
      (at_process_rules (temp_name (initial_world stdin fs)) ctx
         (set_reads S (staged (initial_world stdin fs) config)))
      = (Returned (df, kg), w') /\
    engine_steps E (temp_name (initial_world stdin fs))
      (set_reads S (staged (initial_world stdin fs) config))
      = (Returned (ctx, graph_to_json G0 (Some 100), df, kg), w') /\
    collect_new_triples df = inr new_triples /\
    w_queries w' = records /\
    Forall captured_record records /\
    map record_summary records = map Some (executed events) /\
    w_events w'
      = [ EvInitialize (temp_name (initial_world stdin fs)); EvParse (ctx_rdf_data ctx);
          EvProcessRules ] ++ events /\
    json_dumps (success_output E start (clock E (w_reads w'))
                  (isoformat (clock E (S (w_reads w')))) ctx G0 df kg new_triples records)
      = inr text /\
    run_world E (initial_world stdin fs)
      = cleaned (temp_name (initial_world stdin fs))
          (printed text (set_reads S (set_reads S w'))).
Proof.
  set (w := initial_world stdin fs). unfold run_world.
  destruct (json_load E stdin) as [e|v] eqn:Hl.
  { by rewrite (main_malformed E w e Hl). }
  destruct (json_dumps v) as [e|config] eqn:Hd.
  { unfold main, mbind, M_bind, capture_sparql_queries, modify, json_load_stdin,
      stage_config. simpl. rewrite Hl. simpl. by rewrite Hd. }
  rewrite (main_staged E w v config Hl Hd).
  destruct (guarded_run_spec E (temp_name w) (staged w config)) as
    (o & w1 & Hb & Hq & Hcases); [by rewrite staged_file|].
  destruct Hcases as [(output & text & -> & Hdump & ->) | [(e & _ & ->) | (n & _ & ->)]];
    [|done..].
  intros _. simpl.
  apply build_output_inv in Hb as (start & ctx & ij & df & kg & w' & Hsteps & Ht).
  destruct (engine_steps_inv E _ (set_reads S (staged (initial_world stdin fs) config))
              _ _ _ _ _ (proj1 (staged_instrumented stdin fs config)) Hsteps)
    as (G0 & records & events & _ & Hparse & -> & Hqs & Hevs & Hrec & Hmap).
  destruct (engine_steps_returned E _ _ _ _ _ _ _ Hsteps) as (G0' & Hinit & Hparse' & _ & Hrun).
  rewrite translate_eq in Ht.
  destruct (collect_new_triples df) as [e|new_triples] eqn:Hnt; [done|].
  injection Ht as <- <-. simpl in Hqs, Hevs, Hparse. rewrite Hqs in Hdump.
  exists v, config, ctx, G0, df, kg, w', new_triples, records, events, text, start.
  split; [done|]. split; [done|]. split; [exact Hinit|]. split; [exact Hparse|].
  split; [exact Hrun|]. split; [exact Hsteps|].
  split; [done|]. split; [exact Hqs|]. split; [exact Hrec|]. split; [exact Hmap|].
  split; [exact Hevs|]. split; [exact Hdump | reflexivity].
Qed.

(** A run with status 0 is a successful run, one in which [main] returns
    after printing its document, unless the engine itself ended the
    process with [sys.exit(0)], in which case nothing was printed.  In a
    successful run the document's [sparql_queries] is the captured log:
    one record per query the engine executed to a result during
    [process_rules], in call order, and [summary.queries_executed] is their
    number. *)
Theorem envelope_reports_captured_log (stdin : string) (fs : gmap string string) :
  run_status E (initial_world stdin fs) = 0 ->
  (exists text output records summary,
     w_stdout (run_world E (initial_world stdin fs)) = [text] /\
     json_dumps output = inr text /\
     field "sparql_queries" output = Some (VList records) /\
     Forall captured_record records /\
     map record_summary records
       = map Some (executed (w_events (run_world E (initial_world stdin fs)))) /\
     field "summary" output = Some summary /\
     field "queries_executed" summary = Some (VInt (Z.of_nat (length records)))) \/
  (fst (main E (initial_world stdin fs)) = Exiting 0 /\
   w_stdout (run_world E (initial_world stdin fs)) = []).
Proof.
  intros Hstatus.
  destruct (fst (main E (initial_world stdin fs))) as [[]|e|n] eqn:Hrun.
  - left.
    destruct (successful_run_inv stdin fs Hrun) as
      (v & config & ctx & G0 & df & kg & w' & nt & records & events & text & start &
       Hl & Hd & Hinit & Hparse & Hengine & Hsteps & Hnt & Hq & Hrec & Hmap & Hev & Hdump & ->).
    assert (Hout : w_stdout w' = []).
    { pose proof (Quiet_engine_steps E (temp_name (initial_world stdin fs))
                    (set_reads S (staged (initial_world stdin fs) config))) as Hquiet.
      rewrite Hsteps in Hquiet. simpl in Hquiet. by destruct Hquiet as (_ & ? & _). }
    eexists text, _, records, _. simpl. rewrite Hout.
    split; [done|]. split; [exact Hdump|]. split; [done|]. split; [done|].
    split; [|by split].
    rewrite Hev, Hmap, <- app_assoc. by rewrite executed_engine_steps.
  - unfold run_status in Hstatus. rewrite Hrun in Hstatus. done.
  - unfold run_status in Hstatus. rewrite Hrun in Hstatus. simpl in Hstatus. subst n.
    right. split; [done|].
    destruct (json_load E stdin) as [e|v] eqn:Hl.
    { by rewrite (main_malformed E (initial_world stdin fs) e Hl) in Hrun. }
    destruct (json_dumps v) as [e|config] eqn:Hd.
    { by rewrite (main_stage_fails E (initial_world stdin fs) v e Hl Hd) in Hrun. }
    destruct (staged_run_one_envelope E stdin fs v config Hl Hd)
      as [(text & doc & _ & _ & [[Hm _] | [Hm _]]) | (n & _ & _ & Hout)];
      [congruence | congruence | exact Hout].
Qed.

(** In a successful run, one in which [main] returns, let [G0] be the
    graph parsed from the data file that [initialize] named, and
    [enriched_kg] the graph that the call of [process_rules] returned with
    the table [result_df].  The document lists at most 100 triples of [G0]
    and 1000 of [enriched_kg], in enumeration order, while
    [graphs.statistics] reports the full size of both and the number of
    new triples collected from [result_df]. *)
Theorem envelope_graph_statistics (stdin : string) (fs : gmap string string) :
  fst (main E (initial_world stdin fs)) = Returned tt ->
  exists text output v config ctx G0 result_df enriched_kg graphs new_triples,
    w_stdout (run_world E (initial_world stdin fs)) = [text] /\
    json_dumps output = inr text /\
    json_load E stdin = inr v /\ json_dumps v = inr config /\
    initialize E (w_fs (staged (initial_world stdin fs) config))
      (temp_name (initial_world stdin fs)) = inr ctx /\
    nt_parse E (w_fs (staged (initial_world stdin fs) config)) (ctx_rdf_data ctx) = inr G0 /\
    fst (run_engine E (process_rules_call E ctx)
           (at_process_rules (temp_name (initial_world stdin fs)) ctx
              (set_reads S (staged (initial_world stdin fs) config))))
      = Returned (result_df, enriched_kg) /\
    collect_new_triples result_df = inr new_triples /\
    field "graphs" output = Some graphs /\
    field "new_triples" output = Some (VList new_triples) /\
    (field "initial" graphs ≫= field "triples")
      = Some (VList (map triple_entry (take 100 (g_triples G0)))) /\
    (field "enriched" graphs ≫= field "triples")
      = Some (VList (map triple_entry (take 1000 (g_triples enriched_kg)))) /\
    field "statistics" graphs
      = Some (VDict [ ("initial_triples", VInt (graph_len G0));
                      ("enriched_triples", VInt (graph_len enriched_kg));
                      ("predictions_added", VInt (Z.of_nat (length new_triples))) ]).
Proof.
  intros Hrun.
  destruct (successful_run_inv stdin fs Hrun) as
    (v & config & ctx & G0 & df & kg & w' & nt & records & events & text & start &
     Hl & Hd & Hinit & Hparse & Hengine & Hsteps & Hnt & Hq & Hrec & Hmap & Hev & Hdump & ->).
  assert (Hout : w_stdout w' = []).
  { pose proof (Quiet_engine_steps E (temp_name (initial_world stdin fs))
                  (set_reads S (staged (initial_world stdin fs) config))) as Hquiet.
    rewrite Hsteps in Hquiet. simpl in Hquiet. by destruct Hquiet as (_ & ? & _). }
  eexists text, _, v, config, ctx, G0, df, kg, _, nt. simpl. rewrite Hout.
  split; [done|]. split; [exact Hdump|]. split; [exact Hl|]. split; [exact Hd|].
  split; [exact Hinit|]. split; [exact Hparse|]. split; [by rewrite Hengine|].
  split; [exact Hnt|].
  split; [reflexivity|]. split; [reflexivity|].
  change (field "initial" (VDict (("initial", ?x) :: ?r))) with (Some x).
  split; [exact (graph_to_json_triples G0 (Some 100))|].
  split; [exact (graph_to_json_triples kg (Some 1000)) | reflexivity].
Qed.


End SuccessfulRuns.

(** ** The further properties on the sample environments *)

(** A request that parses and is staged gets exactly one document, the
    success document when [main] returns, with status 0, or the failure
    document when the handler ends the run, with status 1, and no document
    has both shapes; the one exception is an engine that ends the process
    itself on the way to [output]: then nothing is printed and the status
    is the engine's. *)
Theorem parsed_request_one_envelope (E : Env) (stdin : string) (fs : gmap string string)
    (v : pyval) (config : string) :
  json_load E stdin = inr v -> json_dumps v = inr config ->
  (exists text doc,
     w_stdout (run_world E (initial_world stdin fs)) = [text] /\
     json_dumps doc = inr text /\
     ((fst (main E (initial_world stdin fs)) = Returned tt /\
       run_status E (initial_world stdin fs) = 0 /\ success_envelope doc) \/
      (fst (main E (initial_world stdin fs)) = Exiting 1 /\
       run_status E (initial_world stdin fs) = 1 /\ failure_envelope doc)) /\
     ~ (success_envelope doc /\ failure_envelope doc)) \/
  (exists n,
     fst (build_output E (temp_name (initial_world stdin fs))
            (staged (initial_world stdin fs) config)) = Exiting n /\
     w_stdout (run_world E (initial_world stdin fs)) = [] /\
     run_status E (initial_world stdin fs) = n).
Proof.
  intros Hl Hd.
  destruct (staged_run_one_envelope E stdin fs v config Hl Hd)
    as [(text & doc & H1 & H2 & H3) | (n & Hb & Hm & Hout)].
  - left. exists text, doc. split; [done|]. split; [done|]. split.
    + unfold run_status. destruct H3 as [[Hm Hs] | [Hm Hf]]; rewrite Hm; auto.
    + intros [(d & -> & _ & Hs) (d' & ? & ? & ? & [= <-] & _ & ->)]. discriminate.
  - right. exists n. split; [done|]. split; [done|]. unfold run_status. by rewrite Hm.
Qed.

(** The sample run prints the success document; the run of an engine that
    calls [sys.exit(3)] prints nothing and has status 3. *)
Lemma parsed_request_one_envelope_witness :
  (exists text doc,
     w_stdout (run_world Sample.env (initial_world "{}" ∅)) = [text] /\
     json_dumps doc = inr text /\
     run_status Sample.env (initial_world "{}" ∅) = 0 /\ success_envelope doc) /\
  w_stdout (run_world MoreSamples.exiting_env (initial_world "{}" ∅)) = [] /\
  run_status MoreSamples.exiting_env (initial_world "{}" ∅) = 3.
Proof.
  split.
  - destruct (parsed_request_one_envelope Sample.env "{}" ∅ (VDict []) "{}")
      as [(text & doc & Hout & Hdump & Hcase & _) | (n & Hb & _)];
      [reflexivity | reflexivity | |].
    + exists text, doc. split; [exact Hout|]. split; [exact Hdump|].
      destruct Hcase as [(_ & Hstatus & Hdoc) | (Hm & _)].
      * split; [exact Hstatus | exact Hdoc].
      * vm_compute in Hm. discriminate Hm.
    + vm_compute in Hb. discriminate Hb.
  - destruct (parsed_request_one_envelope MoreSamples.exiting_env "{}" ∅ (VDict []) "{}")
      as [(text & doc & _ & _ & Hcase & _) | (n & Hb & Hout & Hstatus)];
      [reflexivity | reflexivity | |].
    + destruct Hcase as [(Hm & _) | (Hm & _)]; vm_compute in Hm; discriminate Hm.
    + vm_compute in Hb. injection Hb as <-. split; [exact Hout | exact Hstatus].
Defined.

(** The run of the engine that calls [sys.exit(3)] after one query: no
    document, status 3, and the [finally] clause still removes the staged
    file. *)
Example engine_exit_run :
  fst (main MoreSamples.exiting_env (initial_world "{}" ∅)) = Exiting 3 /\
  w_stdout (run_world MoreSamples.exiting_env (initial_world "{}" ∅)) = [] /\
  w_fs (run_world MoreSamples.exiting_env (initial_world "{}" ∅)) = ∅ /\
  removals (temp_name (initial_world "{}" ∅))
    (w_events (run_world MoreSamples.exiting_env (initial_world "{}" ∅))) = 1%nat /\
  length (w_queries (run_world MoreSamples.exiting_env (initial_world "{}" ∅))) = 1%nat.
Proof. vm_compute. repeat split. Qed.

Lemma malformed_request_stages_nothing_witness :
  w_fs (run_world Sample.env (initial_world "not json" {[ "kg.nt" := "triples" ]}))
    = {[ "kg.nt" := "triples" ]} /\
  forall path,
    removals path
      (w_events (run_world Sample.env (initial_world "not json" {[ "kg.nt" := "triples" ]})))
    = 0%nat.
Proof.
  apply (malformed_request_stages_nothing Sample.env "not json" {[ "kg.nt" := "triples" ]}
           (mkExn "JSONDecodeError" "Expecting value: line 1 column 1 (char 0)")).
  reflexivity.
Defined.

Lemma engine_failure_reported_witness :
  run_status Sample.failing_env (initial_world "{}" ∅) = 1 /\
  exists text timestamp,
    w_stdout (run_world Sample.failing_env (initial_world "{}" ∅)) = [text] /\
    json_dumps (VDict [ ("success", VBool false); ("error", VStr "'KG'");
                        ("traceback",
                         VStr (format_exc (mkExn "KeyError" "'KG'")));
                        ("timestamp", VStr timestamp) ]) = inr text.
Proof.
  apply (engine_failure_reported Sample.failing_env "{}" ∅ (VDict []) "{}"
           (mkExn "KeyError" "'KG'")).
  - reflexivity.
  - reflexivity.
  - vm_compute. reflexivity.
Defined.

Lemma initialize_failure_stops_run_witness :
  run_status Sample.failing_env (initial_world "{}" ∅) = 1 /\
  w_events (run_world Sample.failing_env (initial_world "{}" ∅))
    = [ EvInitialize (temp_name (initial_world "{}" ∅));
        EvRemove (temp_name (initial_world "{}" ∅)) ] /\
  exists text timestamp,
    w_stdout (run_world Sample.failing_env (initial_world "{}" ∅)) = [text] /\
    json_dumps (error_output (mkExn "KeyError" "'KG'") timestamp) = inr text.
Proof.
  apply (initialize_failure_stops_run Sample.failing_env "{}" ∅ (VDict []) "{}");
    reflexivity.
Defined.

Lemma parse_failure_skips_process_rules_witness :
  run_status MoreSamples.unparsable_env (initial_world "{}" ∅) = 1 /\
  w_events (run_world MoreSamples.unparsable_env (initial_world "{}" ∅))
    = [ EvInitialize (temp_name (initial_world "{}" ∅));
        EvParse "kg.nt";
        EvRemove (temp_name (initial_world "{}" ∅)) ] /\
  exists text timestamp,
    w_stdout (run_world MoreSamples.unparsable_env (initial_world "{}" ∅)) = [text] /\
    json_dumps (error_output (mkExn "ParserError" "Invalid line in kg.nt") timestamp)
      = inr text.
Proof.
  apply (parse_failure_skips_process_rules MoreSamples.unparsable_env "{}" ∅ (VDict []) "{}"
           Sample.context).
  - reflexivity.
  - reflexivity.
  - vm_compute. reflexivity.
  - reflexivity.
Defined.

Lemma envelope_reports_captured_log_witness :
  exists text output records summary,
    w_stdout (run_world MoreSamples.two_graph_env (initial_world "{}" ∅)) = [text] /\
    json_dumps output = inr text /\
    field "sparql_queries" output = Some (VList records) /\
    Forall captured_record records /\
    map record_summary records
      = map Some (executed (w_events (run_world MoreSamples.two_graph_env
                                        (initial_world "{}" ∅)))) /\
    field "summary" output = Some summary /\
    field "queries_executed" summary = Some (VInt (Z.of_nat (length records))).
Proof.
  destruct (envelope_reports_captured_log MoreSamples.two_graph_env "{}" ∅)
    as [Hdoc | (Hm & _)]; [vm_compute; reflexivity | exact Hdoc |].
  vm_compute in Hm. discriminate Hm.
Defined.

(** The two queries of [two_graphs], on two different graphs, in call
    order. *)
Example two_graph_log :
  executed (w_events (run_world MoreSamples.two_graph_env (initial_world "{}" ∅)))
  = [ ("ASK { ?s ?p ?o }", 3); ("SELECT ?o WHERE { ?s ?p ?o }", 3) ].
Proof. vm_compute. reflexivity. Qed.

Lemma envelope_graph_statistics_witness :
  exists text output graphs,
    w_stdout (run_world Sample.env (initial_world "{}" ∅)) = [text] /\
    json_dumps output = inr text /\
    field "graphs" output = Some graphs /\
    (field "initial" graphs ≫= field "triples")
      = Some (VList (map triple_entry (g_triples Sample.kg_graph))) /\
    (field "enriched" graphs ≫= field "triples")
      = Some (VList (map triple_entry (g_triples Sample.enriched_graph))) /\
    field "statistics" graphs
      = Some (VDict [ ("initial_triples", VInt 3);
                      ("enriched_triples", VInt 4);
                      ("predictions_added", VInt 2) ]).
Proof.
  destruct (envelope_graph_statistics Sample.env "{}" ∅)
    as (text & output & v & config & ctx & G0 & result_df & enriched_kg & graphs & new_triples
        & Hout & Hdump & Hv & Hconfig & Hctx & Hparse & Hrun & Hnt & Hg & _ & Hi & He & Hs);
    [vm_compute; reflexivity|].
  vm_compute in Hv. injection Hv as <-.
  vm_compute in Hconfig. injection Hconfig as <-.
  vm_compute in Hctx. injection Hctx as <-.
  vm_compute in Hparse. injection Hparse as <-.
  vm_compute in Hrun. injection Hrun as <- <-.
  vm_compute in Hnt. injection Hnt as <-.
  exists text, output, graphs.
  split; [exact Hout|]. split; [exact Hdump|]. split; [exact Hg|].
  split; [exact Hi|]. split; [exact He | exact Hs].
Defined.


(** The table of node numbers is not usable: [iterrows] presents its cells
    as numpy.int64, which the encoder rejects, although the same cells are
    accepted as [to_dict('records')] hands them out. *)
Example numpy_predictions_not_usable :
  Forall (Forall serializable) (df_rows Sample.numpy_predictions) /\
  ~ usable_table (Some Sample.numpy_predictions).
Proof.
  split; [repeat constructor; by eexists|].
  intros H. destruct (H _ eq_refl) as (_ & _ & [Hempty | (_ & _ & Hiter)]); [done|].
  inversion Hiter as [|? ? Hrow _]; subst. inversion Hrow as [|? ? Hcell _]; subst.
  by destruct (unserializable_object "int64").
Qed.
